(** * fastcache: a promise-based cache facade over Redis

    Shallow embedding of [src/FastCache.ts] and [src/fast-cache.ts] (the two
    files carry the same class; the first adds [setOf], the second adds the
    Redlock based [lock]/[unlock]).  The facade is modelled by explicit state
    passing over a world made of the Redis server, the queue of
    [setImmediate] callbacks and the [debug] log. *)

From Stdlib Require Import ZArith Ascii String List Lia DecimalString.
From stdpp Require Import base option gmap strings list fin_maps.
Import ListNotations.

Set Warnings "-register-all".

Local Open Scope string_scope.
Local Open Scope list_scope.
Local Open Scope Z_scope.

(** ** JavaScript values, errors and completions *)

Module JS.

(** The values the facade moves around ([any] in the source).  Numbers are
    the integral ones; a [bigint] is kept apart because [JSON.stringify]
    refuses it.  An object is its list of own enumerable string-keyed
    properties in property order. *)
Inductive value : Type :=
| VUndefined
| VNull
| VBool (b : bool)
| VNum (n : Z)
| VBigInt (n : Z)
| VStr (s : string)
| VArr (items : list value)
| VObj (fields : list (string * value)).

(** What can be thrown, or what a promise can be rejected with. *)
Inductive error : Type :=
| StringifyError            (* TypeError raised by JSON.stringify *)
| ParseError                (* SyntaxError raised by JSON.parse *)
| InvalidArgType            (* TypeError ERR_INVALID_ARG_TYPE of hash.update *)
| NotAnObject               (* TypeError: cannot read a property of undefined *)
| ConnectionError           (* the Redis connection is gone *)
| ReplyError (msg : string) (* Redis answered with an error reply *)
| LockContention            (* the lease is held by somebody else *)
| LockOwnershipError        (* release without the matching token *)
| NotModelled               (* input outside the modelled fragment of JSON *)
| Raised (reason : value).  (* anything the caller's computation throws *)

(** Result of running a piece of code to its end. [Pending] is an [await]
    on a promise that never settles. *)
Inductive completion (A : Type) : Type :=
| Return (a : A)
| Throw (e : error)
| Pending.
Arguments Return {A} a.
Arguments Throw {A} e.
Arguments Pending {A}.

(** State of the promise handed to [withCache]. *)
Inductive promise : Type :=
| Fulfilled (v : value)
| Rejected (e : error)
| Unsettled.

(** [if (x)] on a string-or-null: [null] and the empty string are falsy. *)
Definition truthy_string (x : option string) : bool :=
  match x with
  | Some s => negb (String.eqb s EmptyString)
  | None => false
  end.

(** [x || d] on an optional number: [undefined] and [0] are falsy. *)
Definition or_default (x : option Z) (d : Z) : Z :=
  match x with
  | Some n => if n =? 0 then d else n
  | None => d
  end.

(** [x || ''] on an optional string. *)
Definition or_empty (x : option string) : string :=
  match x with
  | Some s => s
  | None => EmptyString
  end.

End JS.
Export JS.

(** ** The store: a Redis server with a clock

    The server is the external collaborator of the facade.  Its commands
    follow the Redis command reference, restricted to the ones the facade
    and the lock primitive send.  Expiry is an absolute time in
    milliseconds; an entry whose time has come is not there any more. *)

Module Redis.

Inductive rvalue : Type :=
| RString (s : string)
| RList (items : list string)
| RHash (fields : gmap string string)
| RSet (members : gset string).

Record entry : Type := Entry { content : rvalue; expire_at : option Z }.

Record server : Type := Server {
  db : gmap string entry;
  now : Z;            (* milliseconds *)
  online : bool       (* false: the connection is closed, see [send] *)
}.

Inductive reply : Type :=
| Nil
| Status (s : string)
| Int (n : Z)
| Bulk (s : string)
| Multi (replies : list reply)
| Err (msg : string).

Inductive command : Type :=
| GET (key : string)
| SET (key value : string) (ex : Z)            (* SET key value EX ex *)
| SET_NX_PX (key value : string) (px : Z)      (* SET key value NX PX px *)
| DEL_IF_EQ (key value : string)               (* compare-and-delete script *)
| DEL (keys : list string)
| MGET (keys : list string)
| FLUSHDB
| RPUSH (key : string) (values : list string)
| LPUSH (key : string) (values : list string)
| RPOP (key : string)
| LPOP (key : string)
| LRANGE (key : string) (start stop : Z)
| LTRIM (key : string) (start stop : Z)
| LLEN (key : string)
| HSET (key field value : string)
| HGET (key field : string)
| HDEL (key : string) (fields : list string)
| HMSET (key : string) (pairs : list (string * string))
| HMGET (key : string) (fields : list string)
| HLEN (key : string)
| SADD (key : string) (members : list string)
| SREM (key : string) (members : list string)
| SISMEMBER (key member : string)
| SCARD (key : string).

Definition wrongtype : reply :=
  Err "WRONGTYPE Operation against a key holding the wrong kind of value".

Definition wrong_arity (name : string) : reply :=
  Err ("ERR wrong number of arguments for '" ++ name ++ "' command")%string.

Definition expired (t : Z) (e : entry) : bool :=
  match expire_at e with
  | Some at_ => at_ <=? t
  | None => false
  end.

(** The entry at [key], unless its time has come. *)
Definition live (σ : server) (key : string) : option entry :=
  match db σ !! key with
  | Some e => if expired (now σ) e then None else Some e
  | None => None
  end.

Definition with_db (σ : server) (d : gmap string entry) : server :=
  Server d (now σ) (online σ).

Definition put (σ : server) (key : string) (e : entry) : server :=
  with_db σ (<[key := e]> (db σ)).

Definition drop_key (σ : server) (key : string) : server :=
  with_db σ (delete key (db σ)).

(** Expiry already attached to a live key (kept by the collection commands). *)
Definition kept_expiry (σ : server) (key : string) : option Z :=
  match live σ key with
  | Some e => expire_at e
  | None => None
  end.

(** Write back a collection; an emptied collection removes its key. *)
Definition put_content (σ : server) (key : string) (empty : bool) (c : rvalue) : server :=
  if empty then drop_key σ key else put σ key (Entry c (kept_expiry σ key)).

(** Index window of LRANGE and LTRIM on a list of length [len]:
    first index and number of items. *)
Definition window (len start stop : Z) : Z * Z :=
  let start := if start <? 0 then Z.max 0 (start + len) else start in
  let stop := if stop <? 0 then stop + len else Z.min stop (len - 1) in
  if (stop <? start) || (len <=? start) then (0, 0) else (start, stop - start + 1).

Definition slice (l : list string) (start stop : Z) : list string :=
  let w := window (Z.of_nat (length l)) start stop in
  take (Z.to_nat (snd w)) (drop (Z.to_nat (fst w)) l).

Definition as_list (σ : server) (key : string) : option (list string) :=
  match live σ key with
  | None => Some []
  | Some (Entry (RList l) _) => Some l
  | Some _ => None
  end.

Definition as_hash (σ : server) (key : string) : option (gmap string string) :=
  match live σ key with
  | None => Some ∅
  | Some (Entry (RHash h) _) => Some h
  | Some _ => None
  end.

Definition as_set (σ : server) (key : string) : option (gset string) :=
  match live σ key with
  | None => Some ∅
  | Some (Entry (RSet s) _) => Some s
  | Some _ => None
  end.

Definition bulk_or_nil (o : option string) : reply :=
  match o with
  | Some s => Bulk s
  | None => Nil
  end.

Definition string_at (σ : server) (key : string) : option string :=
  match live σ key with
  | Some (Entry (RString s) _) => Some s
  | _ => None
  end.

Definition del_one (acc : Z * server) (key : string) : Z * server :=
  match live (snd acc) key with
  | Some _ => (fst acc + 1, drop_key (snd acc) key)
  | None => (fst acc, drop_key (snd acc) key)
  end.

Definition list_is_empty {A} (l : list A) : bool :=
  match l with
  | [] => true
  | _ => false
  end.

(** One command on the server. *)
Definition exec (c : command) (σ : server) : reply * server :=
  match c with
  | GET key =>
      match live σ key with
      | None => (Nil, σ)
      | Some (Entry (RString s) _) => (Bulk s, σ)
      | Some _ => (wrongtype, σ)
      end
  | SET key value ex =>
      if ex <=? 0 then (Err "ERR invalid expire time in 'set' command", σ)
      else (Status "OK", put σ key (Entry (RString value) (Some (now σ + 1000 * ex))))
  | SET_NX_PX key value px =>
      if px <=? 0 then (Err "ERR invalid expire time in 'set' command", σ)
      else match live σ key with
           | Some _ => (Nil, σ)
           | None => (Status "OK", put σ key (Entry (RString value) (Some (now σ + px))))
           end
  | DEL_IF_EQ key value =>
      match string_at σ key with
      | Some s => if String.eqb s value then (Int 1, drop_key σ key) else (Int 0, σ)
      | None => (Int 0, σ)
      end
  | DEL [] => (wrong_arity "del", σ)
  | DEL keys =>
      let r := foldl del_one (0, σ) keys in (Int (fst r), snd r)
  | MGET [] => (wrong_arity "mget", σ)
  | MGET keys => (Multi (map (fun k => bulk_or_nil (string_at σ k)) keys), σ)
  | FLUSHDB => (Status "OK", with_db σ ∅)
  | RPUSH key [] => (wrong_arity "rpush", σ)
  | LPUSH key [] => (wrong_arity "lpush", σ)
  | HDEL key [] => (wrong_arity "hdel", σ)
  | HMSET key [] => (wrong_arity "hmset", σ)
  | HMGET key [] => (wrong_arity "hmget", σ)
  | SADD key [] => (wrong_arity "sadd", σ)
  | SREM key [] => (wrong_arity "srem", σ)
  | RPUSH key values =>
      match as_list σ key with
      | Some l => let l' := l ++ values in
                  (Int (Z.of_nat (length l')), put_content σ key (list_is_empty l') (RList l'))
      | None => (wrongtype, σ)
      end
  | LPUSH key values =>
      match as_list σ key with
      | Some l => let l' := rev values ++ l in
                  (Int (Z.of_nat (length l')), put_content σ key (list_is_empty l') (RList l'))
      | None => (wrongtype, σ)
      end
  | RPOP key =>
      match as_list σ key with
      | Some l => match rev l with
                  | [] => (Nil, σ)
                  | x :: r => (Bulk x, put_content σ key (list_is_empty r) (RList (rev r)))
                  end
      | None => (wrongtype, σ)
      end
  | LPOP key =>
      match as_list σ key with
      | Some [] => (Nil, σ)
      | Some (x :: r) => (Bulk x, put_content σ key (list_is_empty r) (RList r))
      | None => (wrongtype, σ)
      end
  | LRANGE key start stop =>
      match as_list σ key with
      | Some l => (Multi (map Bulk (slice l start stop)), σ)
      | None => (wrongtype, σ)
      end
  | LTRIM key start stop =>
      match as_list σ key with
      | Some l => let l' := slice l start stop in
                  (Status "OK", put_content σ key (list_is_empty l') (RList l'))
      | None => (wrongtype, σ)
      end
  | LLEN key =>
      match as_list σ key with
      | Some l => (Int (Z.of_nat (length l)), σ)
      | None => (wrongtype, σ)
      end
  | HSET key field value =>
      match as_hash σ key with
      | Some h => (Int (match h !! field with Some _ => 0 | None => 1 end),
                   put_content σ key false (RHash (<[field := value]> h)))
      | None => (wrongtype, σ)
      end
  | HGET key field =>
      match as_hash σ key with
      | Some h => (bulk_or_nil (h !! field), σ)
      | None => (wrongtype, σ)
      end
  | HDEL key fields =>
      match as_hash σ key with
      | Some h => let h' := foldl (fun m f => delete f m) h fields in
                  (Int (Z.of_nat (size h) - Z.of_nat (size h')),
                   put_content σ key (bool_decide (h' = ∅)) (RHash h'))
      | None => (wrongtype, σ)
      end
  | HMSET key pairs =>
      match as_hash σ key with
      | Some h => let h' := foldl (fun m p => <[fst p := snd p]> m) h pairs in
                  (Status "OK", put_content σ key (bool_decide (h' = ∅)) (RHash h'))
      | None => (wrongtype, σ)
      end
  | HMGET key fields =>
      match as_hash σ key with
      | Some h => (Multi (map (fun f => bulk_or_nil (h !! f)) fields), σ)
      | None => (wrongtype, σ)
      end
  | HLEN key =>
      match as_hash σ key with
      | Some h => (Int (Z.of_nat (size h)), σ)
      | None => (wrongtype, σ)
      end
  | SADD key members =>
      match as_set σ key with
      | Some s => let s' := s ∪ list_to_set members in
                  (Int (Z.of_nat (size s') - Z.of_nat (size s)),
                   put_content σ key (bool_decide (s' = ∅)) (RSet s'))
      | None => (wrongtype, σ)
      end
  | SREM key members =>
      match as_set σ key with
      | Some s => let s' := s ∖ list_to_set members in
                  (Int (Z.of_nat (size s) - Z.of_nat (size s')),
                   put_content σ key (bool_decide (s' = ∅)) (RSet s'))
      | None => (wrongtype, σ)
      end
  | SISMEMBER key member =>
      match as_set σ key with
      | Some s => (Int (if bool_decide (member ∈ s) then 1 else 0), σ)
      | None => (wrongtype, σ)
      end
  | SCARD key =>
      match as_set σ key with
      | Some s => (Int (Z.of_nat (size s)), σ)
      | None => (wrongtype, σ)
      end
  end.

(** MULTI ... EXEC: the queued commands run in order, each with its own
    reply; a command that fails does not undo the others. *)
Fixpoint exec_all (cs : list command) (σ : server) : list reply * server :=
  match cs with
  | [] => ([], σ)
  | c :: cs' =>
      let r := exec c σ in
      let rs := exec_all cs' (snd r) in
      (fst r :: fst rs, snd rs)
  end.

(** Time passes. *)
Definition advance (ms : Z) (σ : server) : server :=
  Server (db σ) (now σ + ms) (online σ).

(** A fresh, reachable server at time zero. *)
Definition empty : server := Server ∅ 0 true.

(** The key every command is addressed to ([None] for FLUSHDB, the list of
    keys for DEL and MGET is returned by [keys_of]). *)
Definition keys_of (c : command) : list string :=
  match c with
  | GET k | SET k _ _ | SET_NX_PX k _ _ | DEL_IF_EQ k _ => [k]
  | DEL ks | MGET ks => ks
  | FLUSHDB => []
  | RPUSH k _ | LPUSH k _ | RPOP k | LPOP k | LRANGE k _ _ | LTRIM k _ _ | LLEN k => [k]
  | HSET k _ _ | HGET k _ | HDEL k _ | HMSET k _ | HMGET k _ | HLEN k => [k]
  | SADD k _ | SREM k _ | SISMEMBER k _ | SCARD k => [k]
  end.

End Redis.

(** ** The host: what the JavaScript runtime and the Redis client provide *)

(** Result of a synchronous call. *)
Inductive result (A : Type) : Type :=
| Ok (a : A)
| Exn (e : error).
Arguments Ok {A} a.
Arguments Exn {A} e.

(** [JSON.stringify] yields a string, or [undefined] ([None]) for a value
    with no JSON text, or throws; [JSON.parse] yields a value or throws;
    [sha1] and [base64] are the digest and the text encoding of Node's
    [crypto]; [non_string_arg] is what the Redis client makes of a command
    argument that is not a string. *)
Class Host : Type := {
  JSON_stringify : value -> result (option string);
  JSON_parse : string -> result value;
  sha1 : list ascii -> list ascii;
  base64 : list ascii -> string;
  non_string_arg : value -> result string
}.

(** The UTF-8 bytes of a string: strings are kept as their UTF-8 bytes. *)
Definition utf8 (s : string) : list ascii := list_ascii_of_string s.

(** [createHash('sha1').update(data).digest('base64')]: [update] accepts a
    string (read as UTF-8) and refuses [null] and [undefined]. *)
Definition sha1_update_digest_base64 `{Host} (data : value) : result string :=
  match data with
  | VStr s => Ok (base64 (sha1 (utf8 s)))
  | _ => Exn InvalidArgType
  end.

(** A command argument as the Redis client sends it. *)
Definition client_arg `{Host} (v : value) : result string :=
  match v with
  | VStr s => Ok s
  | _ => non_string_arg v
  end.

(** ** The world the facade runs in *)

(** A lease as the lock primitive hands it out. *)
Record Lock : Type := MkLock {
  resource : string;
  token : string;
  expiration : Z
}.

(** The callbacks [withCache] gives to [setImmediate], as data:
    [PersistResult key result] is
    [() => this.set(key, this.serialize(result)).then(..).catch(..)] and
    [RemoveKey key] is [() => this.remove(key).then(..).catch(..)]. *)
Inductive task : Type :=
| PersistResult (key : string) (res : value)
| RemoveKey (key : string).

(** A line written by [debug]. *)
Inductive debug_line : Type :=
| DebugReply (msg : string) (r : Redis.reply)
| DebugError (msg : string) (e : error).

Record World : Type := MkWorld {
  redis : Redis.server;
  sent : list Redis.command;     (* commands this process put on the wire *)
  immediates : list task;        (* setImmediate queue, oldest first *)
  console : list debug_line;     (* debug output, oldest first *)
  executor_reads : nat;          (* handlers attached to the executor promise *)
  tokens : nat                   (* lease tokens handed out so far *)
}.

Definition new_world (σ : Redis.server) : World := MkWorld σ [] [] [] 0 0.

Definition with_redis (w : World) (σ : Redis.server) : World :=
  MkWorld σ (sent w) (immediates w) (console w) (executor_reads w) (tokens w).

(** Code that runs in the world and completes, throws or hangs. *)
Definition M (A : Type) : Type := World -> completion A * World.

Definition ret {A} (a : A) : M A := fun w => (Return a, w).

Definition throw {A} (e : error) : M A := fun w => (Throw e, w).

Definition bind {A B} (m : M A) (k : A -> M B) : M B :=
  fun w =>
    match m w with
    | (Return a, w') => k a w'
    | (Throw e, w') => (Throw e, w')
    | (Pending, w') => (Pending, w')
    end.

Notation "x <- m ;; k" := (bind m (fun x => k))
  (at level 100, m at next level, right associativity).

(** [m.catch(handler)], or [try { m } catch (e) { handler }]. *)
Definition try_catch {A} (m : M A) (handler : error -> M A) : M A :=
  fun w =>
    match m w with
    | (Throw e, w') => handler e w'
    | r => r
    end.

Definition lift {A} (r : result A) : M A :=
  match r with
  | Ok a => ret a
  | Exn e => throw e
  end.

Definition count_read (w : World) : World :=
  MkWorld (redis w) (sent w) (immediates w) (console w)
          (S (executor_reads w)) (tokens w).

Definition enqueue (t : task) (w : World) : World :=
  MkWorld (redis w) (sent w) (immediates w ++ [t]) (console w)
          (executor_reads w) (tokens w).

Definition clear_immediates (w : World) : World :=
  MkWorld (redis w) (sent w) [] (console w) (executor_reads w) (tokens w).

(** [await p] (or [p.then(..)]) on the executor promise. *)
Definition await (p : promise) : M value :=
  fun w =>
    match p with
    | Fulfilled v => (Return v, count_read w)
    | Rejected e => (Throw e, count_read w)
    | Unsettled => (Pending, count_read w)
    end.

Definition setImmediate (t : task) : M unit :=
  fun w => (Return tt, enqueue t w).

Definition debug (l : debug_line) (w : World) : World :=
  MkWorld (redis w) (sent w) (immediates w) (console w ++ [l])
          (executor_reads w) (tokens w).

Definition record_sent (cs : list Redis.command) (w : World) : World :=
  MkWorld (redis w) (sent w ++ cs) (immediates w) (console w)
          (executor_reads w) (tokens w).

(** A promisified client call, [this.client.xxxAsync(..)]: the promise is
    rejected when the server answers an error, and when the connection is
    closed.  Closed is the state after [client.end(true)] (what [destroy]
    does) or [quit]: the client then refuses every command at once.  A
    connection that is only interrupted, where the client with its default
    options keeps the commands in its offline queue until the server is
    back, is not a state of this model. *)
Definition send (c : Redis.command) : M Redis.reply :=
  fun w =>
    let w := record_sent [c] w in
    if Redis.online (redis w) then
      match Redis.exec c (redis w) with
      | (Redis.Err msg, σ) => (Throw (ReplyError msg), with_redis w σ)
      | (r, σ) => (Return r, with_redis w σ)
      end
    else (Throw ConnectionError, w).

(** [multi.exec(cb)]: [err] is set only when the batch could not be run.
    [sent] records the commands of the batch; the MULTI and EXEC that frame
    them on the wire (also around an empty batch) are left out. *)
Definition send_multi (cs : list Redis.command) : M (list Redis.reply) :=
  fun w =>
    let w := record_sent cs w in
    if Redis.online (redis w) then
      let r := Redis.exec_all cs (redis w) in
      (Return (fst r), with_redis w (snd r))
    else (Throw ConnectionError, w).

(** ** The lock primitive

    Modelled from the spec: the Redlock package the facade wraps is not part
    of the sources.  Section 4.3 asks for an acquire that is atomic at the
    store (set-if-not-exists with expiry), answering [LockContention] when
    the name is leased, and a release by check-and-delete on the token issued
    at acquire time, answering [LockOwnershipError] when the token does not
    match. *)

Module Redlock.

(** The n-th token handed out by this process. *)
Fixpoint token_of (n : nat) : string :=
  match n with
  | O => "#"
  | S n' => String "x" (token_of n')
  end.

Definition take_token : M string :=
  fun w => (Return (token_of (tokens w)),
            MkWorld (redis w) (sent w) (immediates w) (console w)
                    (executor_reads w) (S (tokens w))).

Definition clock : M Z := fun w => (Return (Redis.now (redis w)), w).

Definition lock (name : string) (ttl : Z) : M Lock :=
  tok <- take_token ;;
  t <- clock ;;
  r <- send (Redis.SET_NX_PX name tok ttl) ;;
  match r with
  | Redis.Status _ => ret (MkLock name tok (t + ttl))
  | _ => throw LockContention
  end.

Definition unlock (l : Lock) : M unit :=
  r <- send (Redis.DEL_IF_EQ (resource l) (token l)) ;;
  match r with
  | Redis.Int 1 => ret tt
  | _ => throw LockOwnershipError
  end.

End Redlock.

(** ** The facade *)

Record FastCacheOpts : Type := MkOpts {
  opt_prefix : option string;
  opt_ttl : option Z
}.

Record FastCache : Type := MkFastCache {
  prefix : string;
  ttl : Z;
  redlock : bool;            (* [this.redlock] is set *)
  redlockttl : Z;
  locker : option Lock       (* [this.locker], [undefined] before the first lock *)
}.

Module Cache.

Section WithHost.
Context `{Host}.

(** [init]: the connection is the world's server; the options kept are the
    prefix and the default TTL in seconds.  [flush] and its pattern scan are
    left out of this development. *)
Definition init (opts : FastCacheOpts) : FastCache :=
  MkFastCache (or_empty (opt_prefix opts)) (or_default (opt_ttl opts) (60 * 5))
              false 0 None.

Definition set (c : FastCache) (key : string) (value : value) (ex : option Z)
  : M Redis.reply :=
  arg <- lift (client_arg value) ;;
  send (Redis.SET key arg (or_default ex (ttl c))).

Definition as_string (r : Redis.reply) : option string :=
  match r with
  | Redis.Bulk s => Some s
  | _ => None
  end.

Definition get (c : FastCache) (key : string) : M (option string) :=
  r <- send (Redis.GET key) ;;
  ret (as_string r).

Definition remove (c : FastCache) (key : string) : M Redis.reply :=
  send (Redis.DEL [key]).

(** [obj] is [Object.entries(obj)]. *)
Definition setAll (c : FastCache) (obj : list (string * string)) : M unit :=
  _ <- send_multi (map (fun kv => Redis.SET (fst kv) (snd kv) (ttl c)) obj) ;;
  ret tt.

Definition getAll (c : FastCache) (keys : list string) : M Redis.reply :=
  send (Redis.MGET keys).

Definition removeAll (c : FastCache) (keys : list string) : M Redis.reply :=
  send (Redis.DEL keys).

Definition serialize (o : value) : value :=
  match JSON_stringify o with
  | Ok (Some s) => VStr s
  | Ok None => VUndefined
  | Exn _ => VNull
  end.

Definition deserialize (s : string) : value :=
  match JSON_parse s with
  | Ok v => v
  | Exn _ => VNull
  end.

Definition cacheKey (o : value) : result string :=
  sha1_update_digest_base64 (serialize o).

(** [withCache]: [if (cached)] is the test on [cached] below (where it
    holds, [cached] is a string and [or_empty] only unwraps it), the second
    branch is [executor.then(..).catch(..)].  The executor is a promise: the
    facade never starts the computation, it subscribes to its outcome.  A
    call is one step here, so the callbacks of two calls are queued in the
    order of the calls: that is the order of the source for calls awaited
    one after the other; for calls in flight together a rejection reaches
    its handler one microtask after a fulfilment. *)
Definition withCache (c : FastCache) (key : string) (executor : promise) : M value :=
  cached <- get c key ;;
  if truthy_string cached then ret (deserialize (or_empty cached))
  else
    try_catch
      (res <- await executor ;;
       _ <- setImmediate (PersistResult key res) ;;
       ret res)
      (fun err =>
         _ <- setImmediate (RemoveKey key) ;;
         throw err).

(** What the [.then(..).catch(..)] of a callback writes with [debug]; both
    callbacks of the source say 'set ok' and 'set error'. *)
Definition report (r : completion Redis.reply * World) : World :=
  match r with
  | (Return x, w) => debug (DebugReply "set ok" x) w
  | (Throw e, w) => debug (DebugError "set error" e) w
  | (Pending, w) => w
  end.

(** One [setImmediate] callback. *)
Definition run_task (c : FastCache) (t : task) (w : World) : World :=
  match t with
  | PersistResult key res => report (set c key (serialize res) None w)
  | RemoveKey key => report (remove c key w)
  end.

(** One turn of the event loop: the queued callbacks, oldest first. *)
Definition run_immediates (c : FastCache) (w : World) : World :=
  foldl (fun w t => run_task c t w) (clear_immediates w) (immediates w).

(** *** Locks ([fast-cache.ts]) *)

Definition turnOnLock (c : FastCache) : FastCache :=
  MkFastCache (prefix c) (ttl c) true 1000 (locker c).

Definition lock (c : FastCache) (key : string) (w : World)
  : completion Lock * FastCache * World :=
  if redlock c then
    match Redlock.lock key (redlockttl c) w with
    | (Return l, w') =>
        (Return l, MkFastCache (prefix c) (ttl c) (redlock c) (redlockttl c) (Some l), w')
    | (Throw e, w') => (Throw e, c, w')
    | (Pending, w') => (Pending, c, w')
    end
  else (Throw NotAnObject, c, w).

Definition unlock (c : FastCache) : M bool :=
  match locker c with
  | Some l => _ <- Redlock.unlock l ;; ret true
  | None => throw NotAnObject
  end.

End WithHost.

End Cache.

(** ** A concrete host: Node.js

    [JSON.stringify] and [JSON.parse] on the values of [JS.value] (numbers
    are the safe integers; a number beyond them, a number literal with a
    fraction or an exponent and a surrogate escape are outside the model and
    answer [NotModelled]), SHA-1 (FIPS
    180-4) and base64 (RFC 4648) as Node's [crypto] computes them, and the
    argument conversion of the 2.x Redis client. *)

Module Node.

Definition chr (n : N) : ascii := ascii_of_N n.
Definition code (c : ascii) : N := N_of_ascii c.
Definition str1 (n : N) : string := String (chr n) EmptyString.

(** *** JSON.stringify *)

Definition hex_digit (n : N) : ascii :=
  if (n <? 10)%N then chr (48 + n) else chr (87 + n).

Definition escape_char (c : ascii) : string :=
  match code c with
  | 34%N => String (chr 92) (str1 34)
  | 92%N => String (chr 92) (str1 92)
  | 8%N => String (chr 92) "b"
  | 9%N => String (chr 92) "t"
  | 10%N => String (chr 92) "n"
  | 12%N => String (chr 92) "f"
  | 13%N => String (chr 92) "r"
  | n => if (n <? 32)%N
         then String (chr 92)
                (String "u" (String "0" (String "0"
                   (String (hex_digit (n / 16)) (String (hex_digit (n mod 16)) EmptyString)))))
         else String c EmptyString
  end.

Fixpoint escape (s : string) : string :=
  match s with
  | EmptyString => EmptyString
  | String c r => (escape_char c ++ escape r)%string
  end.

Definition quote (s : string) : string :=
  (str1 34 ++ escape s ++ str1 34)%string.

(** The integers that are numbers of JavaScript and that
    [Number.prototype.toString] and [JSON.parse] handle digit by digit:
    [Number.isSafeInteger]. *)
Definition safe_integer (n : Z) : bool :=
  (-9007199254740991 <=? n) && (n <=? 9007199254740991).

(** Used on safe integers only. *)
Definition decimal (n : Z) : string :=
  DecimalString.NilZero.string_of_int (Z.to_int n).

Definition join (l : list string) : string := String.concat "," l.

Fixpoint stringify (v : value) : result (option string) :=
  match v with
  | VUndefined => Ok None
  | VNull => Ok (Some "null")
  | VBool true => Ok (Some "true")
  | VBool false => Ok (Some "false")
  | VNum n => if safe_integer n then Ok (Some (decimal n)) else Exn NotModelled
  | VBigInt _ => Exn StringifyError
  | VStr s => Ok (Some (quote s))
  | VArr items =>
      let fix go (l : list value) : result (list string) :=
        match l with
        | [] => Ok []
        | x :: r =>
            match stringify x with
            | Exn e => Exn e
            | Ok o =>
                match go r with
                | Exn e => Exn e
                | Ok l' => Ok (default "null" o :: l')
                end
            end
        end in
      match go items with
      | Exn e => Exn e
      | Ok l => Ok (Some ("[" ++ join l ++ "]")%string)
      end
  | VObj fields =>
      let fix go (l : list (string * value)) : result (list string) :=
        match l with
        | [] => Ok []
        | (k, x) :: r =>
            match stringify x with
            | Exn e => Exn e
            | Ok o =>
                match go r with
                | Exn e => Exn e
                | Ok l' =>
                    match o with
                    | Some s => Ok ((quote k ++ ":" ++ s)%string :: l')
                    | None => Ok l'
                    end
                end
            end
        end in
      match go fields with
      | Exn e => Exn e
      | Ok l => Ok (Some ("{" ++ join l ++ "}")%string)
      end
  end.

(** *** JSON.parse *)

Fixpoint skip_ws (s : string) : string :=
  match s with
  | String c r =>
      match code c with
      | 32%N | 9%N | 10%N | 13%N => skip_ws r
      | _ => s
      end
  | EmptyString => s
  end.

Definition is_digit (c : ascii) : bool := ((48 <=? code c) && (code c <=? 57))%N.

Definition digit_val (c : ascii) : Z := Z.of_N (code c - 48).

Fixpoint digits (s : string) (acc : Z) : Z * string :=
  match s with
  | String c r => if is_digit c then digits r (10 * acc + digit_val c) else (acc, s)
  | EmptyString => (acc, s)
  end.

Definition starts_fraction (s : string) : bool :=
  match s with
  | String c _ =>
      match code c with
      | 46%N | 101%N | 69%N => true
      | _ => false
      end
  | EmptyString => false
  end.

Definition finish_number (neg : bool) (n : Z) (r : string) : result (value * string) :=
  if starts_fraction r then Exn NotModelled
  else if safe_integer n then Ok (VNum (if neg then - n else n), r)
  else Exn NotModelled.

Definition parse_unsigned (neg : bool) (s : string) : result (value * string) :=
  match s with
  | String c r =>
      if (code c =? 48)%N then finish_number neg 0 r
      else if is_digit c then finish_number neg (fst (digits s 0)) (snd (digits s 0))
      else Exn ParseError
  | EmptyString => Exn ParseError
  end.

Definition parse_number (s : string) : result (value * string) :=
  match s with
  | String c r => if (code c =? 45)%N then parse_unsigned true r else parse_unsigned false s
  | EmptyString => Exn ParseError
  end.

Definition hex_val (c : ascii) : option N :=
  let n := code c in
  if ((48 <=? n) && (n <=? 57))%N then Some (n - 48)%N
  else if ((97 <=? n) && (n <=? 102))%N then Some (n - 87)%N
  else if ((65 <=? n) && (n <=? 70))%N then Some (n - 55)%N
  else None.

Definition hex4 (a b c d : ascii) : option N :=
  match hex_val a, hex_val b, hex_val c, hex_val d with
  | Some x, Some y, Some z, Some t => Some (((x * 16 + y) * 16 + z) * 16 + t)%N
  | _, _, _, _ => None
  end.

(** UTF-8 bytes of a code point of the basic plane. *)
Definition utf8_of (cp : N) : string :=
  if (cp <? 128)%N then str1 cp
  else if (cp <? 2048)%N then String (chr (192 + cp / 64)) (str1 (128 + cp mod 64))
  else String (chr (224 + cp / 4096))
         (String (chr (128 + (cp / 64) mod 64)) (str1 (128 + cp mod 64))).

Definition is_surrogate (cp : N) : bool := ((55296 <=? cp) && (cp <=? 57343))%N.

Definition prepend (p : string) (r : result (string * string)) : result (string * string) :=
  match r with
  | Ok (s, rest) => Ok ((p ++ s)%string, rest)
  | Exn e => Exn e
  end.

(** The characters of a string literal after its opening quote. *)
Fixpoint parse_chars (s : string) : result (string * string) :=
  match s with
  | EmptyString => Exn ParseError
  | String c r =>
      match code c with
      | 34%N => Ok (EmptyString, r)
      | 92%N =>
          match r with
          | String e r' =>
              match code e with
              | 34%N | 92%N | 47%N => prepend (String e EmptyString) (parse_chars r')
              | 98%N => prepend (str1 8) (parse_chars r')
              | 102%N => prepend (str1 12) (parse_chars r')
              | 110%N => prepend (str1 10) (parse_chars r')
              | 114%N => prepend (str1 13) (parse_chars r')
              | 116%N => prepend (str1 9) (parse_chars r')
              | 117%N =>
                  match r' with
                  | String h1 (String h2 (String h3 (String h4 r''))) =>
                      match hex4 h1 h2 h3 h4 with
                      | Some cp =>
                          if is_surrogate cp then Exn NotModelled
                          else prepend (utf8_of cp) (parse_chars r'')
                      | None => Exn ParseError
                      end
                  | _ => Exn ParseError
                  end
              | _ => Exn ParseError
              end
          | EmptyString => Exn ParseError
          end
      | n => if (n <? 32)%N then Exn ParseError
             else prepend (String c EmptyString) (parse_chars r)
      end
  end.

Fixpoint strip (p s : string) : option string :=
  match p with
  | EmptyString => Some s
  | String a p' =>
      match s with
      | String b s' => if Ascii.eqb a b then strip p' s' else None
      | EmptyString => None
      end
  end.

Definition keyword (kw : string) (v : value) (s : string) : result (value * string) :=
  match strip kw s with
  | Some r => Ok (v, r)
  | None => Exn ParseError
  end.

Fixpoint all_digits (s : string) : bool :=
  match s with
  | EmptyString => true
  | String c r => is_digit c && all_digits r
  end.

(** The array index a property name stands for, if any: such names come
    first in property order, in increasing order. *)
Definition index_of (k : string) : option Z :=
  match k with
  | EmptyString => None
  | String c r =>
      if all_digits k && (negb (code c =? 48)%N || String.eqb r EmptyString)
      then (if fst (digits k 0) <? 4294967295 then Some (fst (digits k 0)) else None)
      else None
  end.

Fixpoint has_key (k : string) (fields : list (string * value)) : bool :=
  match fields with
  | [] => false
  | (k', _) :: r => String.eqb k k' || has_key k r
  end.

Fixpoint replace_field (k : string) (v : value) (fields : list (string * value))
  : list (string * value) :=
  match fields with
  | [] => []
  | (k', v') :: r =>
      if String.eqb k k' then (k', v) :: r else (k', v') :: replace_field k v r
  end.

Fixpoint insert_index (i : Z) (k : string) (v : value) (fields : list (string * value))
  : list (string * value) :=
  match fields with
  | [] => [(k, v)]
  | (k', v') :: r =>
      match index_of k' with
      | Some j => if i <? j then (k, v) :: fields else (k', v') :: insert_index i k v r
      | None => (k, v) :: fields
      end
  end.

(** [obj[k] = v] on a property list. *)
Definition obj_set (fields : list (string * value)) (k : string) (v : value)
  : list (string * value) :=
  if has_key k fields then replace_field k v fields
  else match index_of k with
       | Some i => insert_index i k v fields
       | None => fields ++ [(k, v)]
       end.

Fixpoint parse_value (fuel : nat) (s : string) : result (value * string) :=
  match fuel with
  | O => Exn NotModelled
  | S f =>
      match skip_ws s with
      | EmptyString => Exn ParseError
      | String c r =>
          match code c with
          | 110%N => keyword "null" VNull (String c r)
          | 116%N => keyword "true" (VBool true) (String c r)
          | 102%N => keyword "false" (VBool false) (String c r)
          | 34%N =>
              match parse_chars r with
              | Ok (str, r') => Ok (VStr str, r')
              | Exn e => Exn e
              end
          | 91%N =>
              match skip_ws r with
              | EmptyString => Exn ParseError
              | String c' r' =>
                  if (code c' =? 93)%N then Ok (VArr [], r')
                  else match parse_items f r with
                       | Ok (l, r'') => Ok (VArr l, r'')
                       | Exn e => Exn e
                       end
              end
          | 123%N =>
              match skip_ws r with
              | EmptyString => Exn ParseError
              | String c' r' =>
                  if (code c' =? 125)%N then Ok (VObj [], r')
                  else match parse_members f r [] with
                       | Ok (l, r'') => Ok (VObj l, r'')
                       | Exn e => Exn e
                       end
              end
          | _ => parse_number (String c r)
          end
      end
  end
with parse_items (fuel : nat) (s : string) : result (list value * string) :=
  match fuel with
  | O => Exn NotModelled
  | S f =>
      match parse_value f s with
      | Exn e => Exn e
      | Ok (v, r) =>
          match skip_ws r with
          | EmptyString => Exn ParseError
          | String c r' =>
              if (code c =? 44)%N then
                match parse_items f r' with
                | Ok (l, r'') => Ok (v :: l, r'')
                | Exn e => Exn e
                end
              else if (code c =? 93)%N then Ok ([v], r')
              else Exn ParseError
          end
      end
  end
with parse_members (fuel : nat) (s : string) (acc : list (string * value))
  : result (list (string * value) * string) :=
  match fuel with
  | O => Exn NotModelled
  | S f =>
      match skip_ws s with
      | EmptyString => Exn ParseError
      | String q r =>
          if (code q =? 34)%N then
            match parse_chars r with
            | Exn e => Exn e
            | Ok (k, r1) =>
                match skip_ws r1 with
                | EmptyString => Exn ParseError
                | String colon r2 =>
                    if (code colon =? 58)%N then
                      match parse_value f r2 with
                      | Exn e => Exn e
                      | Ok (v, r3) =>
                          match skip_ws r3 with
                          | EmptyString => Exn ParseError
                          | String c r4 =>
                              if (code c =? 44)%N then parse_members f r4 (obj_set acc k v)
                              else if (code c =? 125)%N then Ok (obj_set acc k v, r4)
                              else Exn ParseError
                          end
                      end
                    else Exn ParseError
                end
            end
          else Exn ParseError
      end
  end.

Definition parse (s : string) : result value :=
  match parse_value (2 * String.length s + 2) s with
  | Ok (v, r) =>
      match skip_ws r with
      | EmptyString => Ok v
      | String _ _ => Exn ParseError
      end
  | Exn e => Exn e
  end.

(** *** SHA-1 *)

Definition mask32 (x : Z) : Z := Z.land x 4294967295.

Definition rotl (n x : Z) : Z :=
  mask32 (Z.lor (Z.shiftl x n) (Z.shiftr x (32 - n))).

Definition byte_val (c : ascii) : Z := Z.of_N (code c).

(** The message, the bit 1, zeros up to 56 modulo 64, and the length in bits
    on eight bytes. *)
Definition pad (msg : list ascii) : list Z :=
  let len := length msg in
  let zeros := ((119 - len mod 64) mod 64)%nat in
  let bits := 8 * Z.of_nat len in
  map byte_val msg ++ [128] ++ repeat 0 zeros
    ++ map (fun i => Z.land (Z.shiftr bits (8 * (7 - Z.of_nat i))) 255) (seq 0 8).

Fixpoint words (bytes : list Z) (n : nat) : list Z :=
  match n with
  | O => []
  | S n' =>
      match bytes with
      | a :: b :: c :: d :: r => (((a * 256 + b) * 256 + c) * 256 + d) :: words r n'
      | _ => []
      end
  end.

(** Message schedule, most recent word first. *)
Fixpoint schedule (n : nat) (ws : list Z) : list Z :=
  match n with
  | O => ws
  | S n' =>
      let w := rotl 1 (Z.lxor (Z.lxor (nth 2 ws 0) (nth 7 ws 0))
                              (Z.lxor (nth 13 ws 0) (nth 15 ws 0))) in
      schedule n' (w :: ws)
  end.

Record regs : Type := Regs { ra : Z; rb : Z; rc : Z; rd : Z; re : Z }.

Definition round (t : nat) (w : Z) (r : regs) : regs :=
  let '(Regs a b c d e) := r in
  let f :=
    if (t <? 20)%nat then Z.lor (Z.land b c) (Z.land (Z.lxor b 4294967295) d)
    else if (t <? 40)%nat then Z.lxor (Z.lxor b c) d
    else if (t <? 60)%nat then Z.lor (Z.lor (Z.land b c) (Z.land b d)) (Z.land c d)
    else Z.lxor (Z.lxor b c) d in
  let k :=
    if (t <? 20)%nat then 1518500249
    else if (t <? 40)%nat then 1859775393
    else if (t <? 60)%nat then 2400959708
    else 3395469782 in
  Regs (mask32 (rotl 5 a + f + e + k + w)) a (rotl 30 b) c d.

Fixpoint rounds (t : nat) (ws : list Z) (r : regs) : regs :=
  match ws with
  | [] => r
  | w :: ws' => rounds (S t) ws' (round t w r)
  end.

Definition compress (h : regs) (block : list Z) : regs :=
  let ws := rev (schedule 64 (rev (words block 16))) in
  let r := rounds 0 ws h in
  Regs (mask32 (ra h + ra r)) (mask32 (rb h + rb r)) (mask32 (rc h + rc r))
       (mask32 (rd h + rd r)) (mask32 (re h + re r)).

Fixpoint blocks (n : nat) (bytes : list Z) (h : regs) : regs :=
  match n with
  | O => h
  | S n' => blocks n' (drop 64 bytes) (compress h (take 64 bytes))
  end.

Definition word_bytes (w : Z) : list ascii :=
  map (fun i => chr (Z.to_N (Z.land (Z.shiftr w (8 * (3 - Z.of_nat i))) 255))) (seq 0 4).

Definition sha1 (msg : list ascii) : list ascii :=
  let bytes := pad msg in
  let h := blocks (length bytes / 64) bytes
             (Regs 1732584193 4023233417 2562383102 271733878 3285377520) in
  word_bytes (ra h) ++ word_bytes (rb h) ++ word_bytes (rc h)
    ++ word_bytes (rd h) ++ word_bytes (re h).

(** *** base64 *)

Definition b64_char (n : Z) : ascii :=
  if n <? 26 then chr (Z.to_N (65 + n))
  else if n <? 52 then chr (Z.to_N (71 + n))
  else if n <? 62 then chr (Z.to_N (n - 4))
  else if n =? 62 then chr 43
  else chr 47.

Fixpoint base64 (bytes : list ascii) : string :=
  match bytes with
  | [] => EmptyString
  | [a] =>
      let x := byte_val a in
      String (b64_char (x / 4)) (String (b64_char ((x mod 4) * 16)) "==")
  | [a; b] =>
      let x := byte_val a in
      let y := byte_val b in
      String (b64_char (x / 4))
        (String (b64_char ((x mod 4) * 16 + y / 16))
           (String (b64_char ((y mod 16) * 4)) "="))
  | a :: b :: c :: r =>
      let x := byte_val a in
      let y := byte_val b in
      let z := byte_val c in
      String (b64_char (x / 4))
        (String (b64_char ((x mod 4) * 16 + y / 16))
           (String (b64_char ((y mod 16) * 4 + z / 64))
              (String (b64_char (z mod 64)) (base64 r))))
  end.

(** *** The Redis client's argument conversion (2.x: [null] and
    [undefined] go out as the words null and undefined; the 3.x client
    refuses such a command instead) *)

Definition non_string_arg (v : value) : result string :=
  match v with
  | VNull => Ok "null"
  | VUndefined => Ok "undefined"
  | VStr s => Ok s
  | _ => Exn NotModelled
  end.

End Node.

#[export] Instance node : Host := {
  JSON_stringify := Node.stringify;
  JSON_parse := Node.parse;
  sha1 := Node.sha1;
  base64 := Node.base64;
  non_string_arg := Node.non_string_arg
}.

(** ** The collection accessors

    [list(key)], [map(key)] and [setOf(key)] return an object of closures
    over [key]; every closure is one client call. *)

Module ListOperations.

Definition push (c : FastCache) (key value : string) : M Redis.reply :=
  send (Redis.RPUSH key [value]).

Definition pop (c : FastCache) (key : string) : M Redis.reply :=
  send (Redis.RPOP key).

Definition unshift (c : FastCache) (key value : string) : M Redis.reply :=
  send (Redis.LPUSH key [value]).

Definition shift (c : FastCache) (key : string) : M Redis.reply :=
  send (Redis.LPOP key).

Definition setAll (c : FastCache) (key : string) (values : list string) : M Redis.reply :=
  send (Redis.LPUSH key values).

Definition getAll (c : FastCache) (key : string) (start stop : option Z) : M Redis.reply :=
  send (Redis.LRANGE key (default 0 start) (default (-1) stop)).

Definition removeAll (c : FastCache) (key : string) (start stop : option Z) : M Redis.reply :=
  send (Redis.LTRIM key (default (-1) start) (default 0 stop)).

Definition length (c : FastCache) (key : string) : M Redis.reply :=
  send (Redis.LLEN key).

End ListOperations.

Module MapOperations.

Definition set (c : FastCache) (key field value : string) : M Redis.reply :=
  send (Redis.HSET key field value).

Definition get (c : FastCache) (key field : string) : M Redis.reply :=
  send (Redis.HGET key field).

Definition remove (c : FastCache) (key field : string) : M Redis.reply :=
  send (Redis.HDEL key [field]).

Definition setAll (c : FastCache) (key : string) (obj : list (string * string)) : M Redis.reply :=
  send (Redis.HMSET key obj).

Definition getAll (c : FastCache) (key : string) (fields : list string) : M Redis.reply :=
  send (Redis.HMGET key fields).

Definition removeAll (c : FastCache) (key : string) (fields : list string) : M Redis.reply :=
  send (Redis.HDEL key fields).

Definition length (c : FastCache) (key : string) : M Redis.reply :=
  send (Redis.HLEN key).

End MapOperations.

Module SetOperations.

Definition add (c : FastCache) (key : string) (values : list string) : M Redis.reply :=
  send (Redis.SADD key values).

Definition remove (c : FastCache) (key : string) (values : list string) : M Redis.reply :=
  send (Redis.SREM key values).

Definition contains (c : FastCache) (key value : string) : M Redis.reply :=
  send (Redis.SISMEMBER key value).

(** [this.client.scard(key)] is the callback style call without a callback:
    the command goes out, its reply is dropped, and the caller gets the
    client's flag saying that the command was written at once (on a ready
    connection; the flag is also false while the client is still
    connecting, which the world does not tell). *)
Definition length (c : FastCache) (key : string) : M bool :=
  fun w =>
    let w := record_sent [Redis.SCARD key] w in
    (Return (Redis.online (redis w)), w).

End SetOperations.

(** ** Sample facades and worlds *)

(** [FastCache.create({ redis: .. })]: no prefix, default TTL. *)
Definition sample_cache : FastCache := Cache.init (MkOpts None None).

(** [FastCache.create({ prefix: 'app:', redis: .. })]. *)
Definition prefixed_cache : FastCache := Cache.init (MkOpts (Some "app:") None).

(** A reachable, empty server and nothing queued. *)
Definition sample_world : World := new_world Redis.empty.

(** The same with one string entry, due to expire after five minutes. *)
Definition world_with (key s : string) : World :=
  new_world (Redis.put Redis.empty key (Redis.Entry (Redis.RString s) (Some 300000))).

(** Time passes in the world. *)
Definition advance_world (ms : Z) (w : World) : World :=
  with_redis w (Redis.advance ms (redis w)).

(** Every entry of the server carries an expiry. *)
Definition volatile (σ : Redis.server) : Prop :=
  map_Forall (fun _ e => is_Some (Redis.expire_at e)) (Redis.db σ).

(** The facade and the world after [turnOnLock()] and [lock('L')]. *)
Definition held_cache : FastCache :=
  snd (fst (Cache.lock (Cache.turnOnLock sample_cache) "L" sample_world)).

Definition held_world : World :=
  snd (Cache.lock (Cache.turnOnLock sample_cache) "L" sample_world).

(** The world after [push('a')], [push('b')] and [push('c')] on the list bar. *)
Definition list_world : World :=
  snd (ListOperations.push sample_cache "bar" "c"
         (snd (ListOperations.push sample_cache "bar" "b"
                 (snd (ListOperations.push sample_cache "bar" "a" sample_world))))).

(** The facade with another prefix. *)
Definition with_prefix (p : string) (c : FastCache) : FastCache :=
  MkFastCache p (ttl c) (redlock c) (redlockttl c) (locker c).

(** ** Helpers for statements about several calls *)

(** What a promisified call makes of a reply. *)
Definition completion_of_reply (r : Redis.reply) : completion Redis.reply :=
  match r with
  | Redis.Err msg => Throw (ReplyError msg)
  | _ => Return r
  end.

(** [for (const x of xs) await list.unshift(x)]. *)
Fixpoint unshift_each (c : FastCache) (key : string) (xs : list string) : M unit :=
  match xs with
  | [] => ret tt
  | x :: r => _ <- ListOperations.unshift c key x ;; unshift_each c key r
  end.

(** [n] times [await list.pop()], the answers in order. *)
Fixpoint pop_times (c : FastCache) (key : string) (n : nat) : M (list Redis.reply) :=
  match n with
  | O => ret []
  | S n' =>
      r <- ListOperations.pop c key ;;
      rs <- pop_times c key n' ;;
      ret (r :: rs)
  end.

(** ** Values that JSON carries unchanged *)

From Stdlib Require DecimalPos DecimalFacts.

(** Texts of the items of an array, as [JSON.stringify] lays them out. *)
Fixpoint arr_texts (l : list value) : result (list string) :=
  match l with
  | [] => Ok []
  | x :: r =>
      match Node.stringify x with
      | Exn e => Exn e
      | Ok o =>
          match arr_texts r with
          | Exn e => Exn e
          | Ok l' => Ok (default "null" o :: l')
          end
      end
  end.

(** Texts of the members of an object. *)
Fixpoint obj_texts (l : list (string * value)) : result (list string) :=
  match l with
  | [] => Ok []
  | (k, x) :: r =>
      match Node.stringify x with
      | Exn e => Exn e
      | Ok o =>
          match obj_texts r with
          | Exn e => Exn e
          | Ok l' =>
              match o with
              | Some s => Ok ((Node.quote k ++ ":" ++ s)%string :: l')
              | None => Ok l'
              end
          end
      end
  end.

(** Values without [undefined] and [bigint] anywhere, whose numbers are safe
    integers (those that [Number.prototype.toString] prints digit by digit)
    and whose objects have distinct property names none of which is an array
    index. *)
Fixpoint json_clean (v : value) : bool :=
  match v with
  | VUndefined | VBigInt _ => false
  | VNum n => Node.safe_integer n
  | VNull | VBool _ | VStr _ => true
  | VArr items =>
      (fix all (l : list value) : bool :=
         match l with
         | [] => true
         | x :: r => json_clean x && all r
         end) items
  | VObj fields =>
      (fix all (l : list (string * value)) : bool :=
         match l with
         | [] => true
         | (k, x) :: r =>
             json_clean x && negb (Node.has_key k r)
             && match Node.index_of k with Some _ => false | None => true end
             && all r
         end) fields
  end.

(** Fuel that [JSON.parse] needs for the text of a value. *)
Fixpoint json_size (v : value) : nat :=
  match v with
  | VArr items =>
      S ((fix sum (l : list value) : nat :=
            match l with
            | [] => O
            | x :: r => (S (json_size x) + sum r)%nat
            end) items)
  | VObj fields =>
      S ((fix sum (l : list (string * value)) : nat :=
            match l with
            | [] => O
            | (_, x) :: r => (S (json_size x) + sum r)%nat
            end) fields)
  | _ => 1%nat
  end.

(** The number a run of decimal digits stands for, after [acc]. *)
Fixpoint uint_value (d : Decimal.uint) (acc : Z) : Z :=
  match d with
  | Decimal.Nil => acc
  | Decimal.D0 d => uint_value d (10 * acc)
  | Decimal.D1 d => uint_value d (10 * acc + 1)
  | Decimal.D2 d => uint_value d (10 * acc + 2)
  | Decimal.D3 d => uint_value d (10 * acc + 3)
  | Decimal.D4 d => uint_value d (10 * acc + 4)
  | Decimal.D5 d => uint_value d (10 * acc + 5)
  | Decimal.D6 d => uint_value d (10 * acc + 6)
  | Decimal.D7 d => uint_value d (10 * acc + 7)
  | Decimal.D8 d => uint_value d (10 * acc + 8)
  | Decimal.D9 d => uint_value d (10 * acc + 9)
  end.

(** A character that may follow the text of a value: not one that would
    continue a number. *)
Definition stops (rest : string) : bool :=
  match rest with
  | EmptyString => true
  | String c _ => negb (Node.is_digit c) && negb (Node.starts_fraction rest)
  end.

(** The characters a JSON text can begin with (white space apart). *)
Definition value_start (c : ascii) : bool :=
  Node.is_digit c
  || match Node.code c with
     | 110%N | 116%N | 102%N | 34%N | 91%N | 123%N | 45%N => true
     | _ => false
     end.

Fixpoint items_size (l : list value) : nat :=
  match l with
  | [] => O
  | x :: r => (S (json_size x) + items_size r)%nat
  end.

Fixpoint fields_size (l : list (string * value)) : nat :=
  match l with
  | [] => O
  | (_, x) :: r => (S (json_size x) + fields_size r)%nat
  end.

Fixpoint fields_clean (l : list (string * value)) : bool :=
  match l with
  | [] => true
  | (k, x) :: r =>
      json_clean x && negb (Node.has_key k r)
      && match Node.index_of k with Some _ => false | None => true end
      && fields_clean r
  end.

(** [JSON.parse] gives the value back from its [JSON.stringify] text, also
    when more text follows. *)
Definition carried (v : value) : Prop :=
  exists s,
    Node.stringify v = Ok (Some s)
    /\ (json_size v <= 2 * String.length s)%nat
    /\ (exists c s', s = String c s' /\ value_start c = true)
    /\ forall fuel rest,
         (json_size v <= fuel)%nat -> stops rest = true ->
         Node.parse_value fuel (s ++ rest)%string = Ok (v, rest).

(** ** Reading a base64 text back (RFC 4648, section 4)

    The decoder is not part of the facade; it is the standard's reading of
    a base64 text, against which the encoder of the host is checked. *)






(** * Properties *)

(** ** The server *)

Lemma with_redis_same (w : World) : with_redis w (redis w) = w.
Proof. by destruct w. Qed.

Lemma live_put (σ : Redis.server) (key : string) (e : Redis.entry) :
  Redis.expired (Redis.now σ) e = false ->
  Redis.live (Redis.put σ key e) key = Some e.
Proof.
  intros He. unfold Redis.live, Redis.put, Redis.with_db. simpl.
  rewrite lookup_insert_eq. by rewrite He.
Qed.

Lemma live_put_ne (σ : Redis.server) (key key' : string) (e : Redis.entry) :
  key <> key' ->
  Redis.live (Redis.put σ key e) key' = Redis.live σ key'.
Proof.
  intros Hne. unfold Redis.live, Redis.put, Redis.with_db. simpl.
  by rewrite lookup_insert_ne.
Qed.

Lemma live_drop_key (σ : Redis.server) (key : string) :
  Redis.live (Redis.drop_key σ key) key = None.
Proof.
  unfold Redis.live, Redis.drop_key, Redis.with_db. simpl.
  by rewrite lookup_delete_eq.
Qed.

Lemma live_drop_key_ne (σ : Redis.server) (key key' : string) :
  key <> key' ->
  Redis.live (Redis.drop_key σ key) key' = Redis.live σ key'.
Proof.
  intros Hne. unfold Redis.live, Redis.drop_key, Redis.with_db. simpl.
  by rewrite lookup_delete_ne.
Qed.

Lemma exec_del_one (σ : Redis.server) (key : string) :
  snd (Redis.exec (Redis.DEL [key]) σ) = Redis.drop_key σ key.
Proof.
  simpl. unfold Redis.del_one. simpl. by destruct (Redis.live σ key).
Qed.

Lemma exec_del_reply (σ : Redis.server) (key : string) :
  exists n, fst (Redis.exec (Redis.DEL [key]) σ) = Redis.Int n.
Proof. simpl. eauto. Qed.

Lemma exec_set (σ : Redis.server) (key value : string) (ex : Z) :
  0 < ex ->
  Redis.exec (Redis.SET key value ex) σ =
  (Redis.Status "OK",
   Redis.put σ key (Redis.Entry (Redis.RString value) (Some (Redis.now σ + 1000 * ex)))).
Proof.
  intros Hex. simpl. destruct (Z.leb_spec ex 0); [lia | done].
Qed.


(** ** The facade *)

Section Facts.
Context `{Host}.
Implicit Types (c : FastCache) (w : World) (key s : string) (v : value).

Lemma get_absent c key w :
  Redis.online (redis w) = true ->
  Redis.live (redis w) key = None ->
  Cache.get c key w = (Return None, record_sent [Redis.GET key] w).
Proof.
  intros Hon Hlive. unfold Cache.get, bind, send. simpl.
  rewrite Hon, Hlive. simpl. unfold ret.
  by rewrite (with_redis_same (record_sent _ w)).
Qed.

Lemma get_string c key w s t :
  Redis.online (redis w) = true ->
  Redis.live (redis w) key = Some (Redis.Entry (Redis.RString s) t) ->
  Cache.get c key w = (Return (Some s), record_sent [Redis.GET key] w).
Proof.
  intros Hon Hlive. unfold Cache.get, bind, send. simpl.
  rewrite Hon, Hlive. simpl. unfold ret.
  by rewrite (with_redis_same (record_sent _ w)).
Qed.

Lemma get_offline c key w :
  Redis.online (redis w) = false ->
  Cache.get c key w = (Throw ConnectionError, record_sent [Redis.GET key] w).
Proof.
  intros Hoff. unfold Cache.get, bind, send. simpl. by rewrite Hoff.
Qed.


Lemma withCache_hit c key w w1 s executor :
  Cache.get c key w = (Return (Some s), w1) ->
  s <> EmptyString ->
  Cache.withCache c key executor w = (Return (Cache.deserialize s), w1).
Proof.
  intros Hget Hs. unfold Cache.withCache, bind at 1. rewrite Hget.
  simpl. destruct (String.eqb_spec s EmptyString); [done | done].
Qed.



End Facts.

Section WithCache.
Context `{Host}.
Implicit Types (c : FastCache) (w : World) (key s : string) (v : value).

(** A read never changes the server; it only goes on the wire. *)
Lemma get_world c key w :
  snd (Cache.get c key w) = record_sent [Redis.GET key] w.
Proof.
  unfold Cache.get, bind, send. simpl.
  destruct (Redis.online (redis w)) eqn:Hon; [| done].
  destruct (Redis.live (redis w) key) as [[[] ?]|]; simpl;
    by rewrite (with_redis_same (record_sent _ w)).
Qed.





End WithCache.

(** ** Compute or fetch *)




(** C2: on a key whose live entry is a non-empty string that parses to [v],
    [withCache] answers [v] whatever the computation is, and never looks at
    the computation: the world only gains the GET on the wire. *)
Theorem withCache_hit_returns_cached `{Host} (c : FastCache) (key s : string)
    (t : option Z) (v : value) (w : World) (executor : promise) :
  Redis.online (redis w) = true ->
  Redis.live (redis w) key = Some (Redis.Entry (Redis.RString s) t) ->
  s <> EmptyString ->
  JSON_parse s = Ok v ->
  Cache.withCache c key executor w = (Return v, record_sent [Redis.GET key] w)
  /\ executor_reads (snd (Cache.withCache c key executor w)) = executor_reads w
  /\ immediates (snd (Cache.withCache c key executor w)) = immediates w
  /\ redis (snd (Cache.withCache c key executor w)) = redis w.
Proof.
  intros Hon Hlive Hs Hparse.
  rewrite (withCache_hit c key w _ s executor (get_string c key w s t Hon Hlive) Hs).
  unfold Cache.deserialize. by rewrite Hparse.
Qed.

Lemma withCache_hit_returns_cached_witness :
  Redis.online (redis (world_with "k" "[1,2]")) = true
  /\ Redis.live (redis (world_with "k" "[1,2]")) "k"
     = Some (Redis.Entry (Redis.RString "[1,2]") (Some 300000))
  /\ "[1,2]" <> EmptyString
  /\ JSON_parse "[1,2]" = Ok (VArr [VNum 1; VNum 2])
  /\ fst (Cache.withCache sample_cache "k" (Rejected ConnectionError) (world_with "k" "[1,2]"))
     = Return (VArr [VNum 1; VNum 2]).
Proof.
  assert (Hne : "[1,2]" <> EmptyString) by discriminate.
  pose proof (withCache_hit_returns_cached sample_cache "k" "[1,2]" (Some 300000)
                (VArr [VNum 1; VNum 2]) (world_with "k" "[1,2]") (Rejected ConnectionError)
                eq_refl eq_refl Hne eq_refl) as (Heq & _).
  split; [reflexivity |]. split; [reflexivity |]. split; [exact Hne |].
  split; [reflexivity |]. exact (f_equal fst Heq).
Defined.






(** ** The cache key *)

Lemma serialize_of_throw `{Host} (o : value) (e : error) :
  JSON_stringify o = Exn e ->
  Cache.serialize o = VNull /\ Cache.cacheKey o = Exn InvalidArgType.
Proof.
  intros Hthrow. unfold Cache.cacheKey, Cache.serialize. by rewrite Hthrow.
Qed.

Lemma serialize_of_undefined `{Host} (o : value) :
  JSON_stringify o = Ok None ->
  Cache.serialize o = VUndefined /\ Cache.cacheKey o = Exn InvalidArgType.
Proof.
  intros Hu. unfold Cache.cacheKey, Cache.serialize. by rewrite Hu.
Qed.

Lemma sha1_length (msg : list ascii) : length (Node.sha1 msg) = 20%nat.
Proof.
  unfold Node.sha1, Node.word_bytes. rewrite !length_app, !length_map, !length_seq. done.
Qed.

Lemma base64_length_20 (l : list ascii) :
  length l = 20%nat -> String.length (Node.base64 l) = 28%nat.
Proof.
  intros Hl. do 20 (destruct l as [| ? l]; [discriminate |]).
  destruct l; [reflexivity | discriminate].
Qed.












(** C6: on a [bigint], which [JSON.stringify] refuses, [serialize] swallows
    the failure and hands [null] to the hash; what [cacheKey] signals is the
    argument error of the hash's [update], not the serialization failure. *)
Theorem cacheKey_unserializable_input :
  JSON_stringify (VBigInt 10) = Exn StringifyError
  /\ Cache.serialize (VBigInt 10) = VNull
  /\ Cache.cacheKey (VBigInt 10) = Exn InvalidArgType
  /\ Cache.cacheKey (VBigInt 10) <> Exn StringifyError.
Proof. repeat split; discriminate. Qed.

(** ** Corrupt entries *)

(** C4: with the unparsable text of an opening brace stored at the key,
    [withCache] answers [null] as if it were the cached value: the
    computation is not consumed, nothing is queued and the entry stays. *)
Theorem withCache_corrupt_entry_returns_null :
  JSON_parse "{" = Exn ParseError
  /\ Cache.withCache sample_cache "k" (Fulfilled (VNum 1)) (world_with "k" "{")
     = (Return VNull, record_sent [Redis.GET "k"] (world_with "k" "{"))
  /\ executor_reads
       (snd (Cache.withCache sample_cache "k" (Fulfilled (VNum 1)) (world_with "k" "{"))) = 0%nat
  /\ immediates
       (snd (Cache.withCache sample_cache "k" (Fulfilled (VNum 1)) (world_with "k" "{"))) = []
  /\ Redis.string_at
       (redis (snd (Cache.withCache sample_cache "k" (Fulfilled (VNum 1)) (world_with "k" "{"))))
       "k" = Some "{".
Proof. repeat split. Qed.

(** ** Keys on the wire *)

Lemma send_sent (cmd : Redis.command) (w : World) :
  sent (snd (send cmd w)) = sent w ++ [cmd].
Proof.
  unfold send. simpl. destruct (Redis.online (redis w)); [| done].
  by destruct (Redis.exec cmd (redis w)) as [[] ?].
Qed.

(** Every operation of the facade addresses the key it was given. *)
Lemma keys_sent_verbatim (c : FastCache) (key a b : string) (l : list string)
    (obj : list (string * string)) (i j : option Z) (w : World) :
  Forall (fun m : M Redis.reply =>
            exists cmd, sent (snd (m w)) = sent w ++ [cmd] /\ Redis.keys_of cmd = [key])
    [ Cache.remove c key;
      ListOperations.push c key a; ListOperations.pop c key;
      ListOperations.unshift c key a; ListOperations.shift c key;
      ListOperations.setAll c key l; ListOperations.getAll c key i j;
      ListOperations.removeAll c key i j; ListOperations.length c key;
      MapOperations.set c key a b; MapOperations.get c key a;
      MapOperations.remove c key a; MapOperations.setAll c key obj;
      MapOperations.getAll c key l; MapOperations.removeAll c key l;
      MapOperations.length c key;
      SetOperations.add c key l; SetOperations.remove c key l;
      SetOperations.contains c key a ].
Proof.
  repeat (constructor; [eexists; split; [apply send_sent | reflexivity] |]).
  constructor.
Qed.

Lemma set_sent `{Host} (c : FastCache) (key s : string) (ex : option Z) (w : World) :
  sent (snd (Cache.set c key (VStr s) ex w))
  = sent w ++ [Redis.SET key s (or_default ex (ttl c))].
Proof. unfold Cache.set, bind, lift, client_arg, ret. apply send_sent. Qed.

Lemma get_sent `{Host} (c : FastCache) (key : string) (w : World) :
  sent (snd (Cache.get c key w)) = sent w ++ [Redis.GET key].
Proof. by rewrite get_world. Qed.

(** C8: a facade created with the prefix [app:] writes, reads and removes
    the key as given; the prefix is kept in the facade and never put in
    front of a key. *)
Theorem prefix_is_not_applied :
  prefix prefixed_cache = "app:"
  /\ sent (snd (Cache.set prefixed_cache "k" (VStr "v") None sample_world))
     = [Redis.SET "k" "v" 300]
  /\ Redis.live (redis (snd (Cache.set prefixed_cache "k" (VStr "v") None sample_world))) "app:k"
     = None
  /\ Redis.string_at (redis (snd (Cache.set prefixed_cache "k" (VStr "v") None sample_world))) "k"
     = Some "v"
  /\ sent (snd (Cache.get prefixed_cache "k" sample_world)) = [Redis.GET "k"]
  /\ sent (snd (Cache.remove prefixed_cache "k" sample_world)) = [Redis.DEL ["k"]]
  /\ sent (snd (ListOperations.push prefixed_cache "k" "v" sample_world)) = [Redis.RPUSH "k" ["v"]]
  /\ sent (snd (MapOperations.set prefixed_cache "k" "f" "v" sample_world))
     = [Redis.HSET "k" "f" "v"]
  /\ sent (snd (SetOperations.add prefixed_cache "k" ["v"] sample_world)) = [Redis.SADD "k" ["v"]].
Proof. repeat split. Qed.

(** ** Expiry of scalar writes *)

Lemma volatile_put (σ : Redis.server) (key : string) (c : Redis.rvalue) (t : Z) :
  volatile σ -> volatile (Redis.put σ key (Redis.Entry c (Some t))).
Proof.
  intros Hv. unfold volatile, Redis.put, Redis.with_db. simpl.
  apply map_Forall_insert_2; [by eexists | exact Hv].
Qed.

Lemma volatile_exec_set (σ : Redis.server) (key value : string) (ex : Z) :
  volatile σ -> volatile (snd (Redis.exec (Redis.SET key value ex) σ)).
Proof.
  intros Hv. simpl. destruct (ex <=? 0); simpl; [exact Hv | by apply volatile_put].
Qed.

Lemma volatile_exec_all_set (obj : list (string * string)) (n : Z) (σ : Redis.server) :
  volatile σ ->
  volatile (snd (Redis.exec_all (map (fun kv => Redis.SET (fst kv) (snd kv) n) obj) σ)).
Proof.
  revert σ. induction obj as [| [k v] obj IH]; intros σ Hv; [exact Hv |].
  cbn [map Redis.exec_all snd fst]. apply IH. by apply volatile_exec_set.
Qed.

Lemma send_redis (cmd : Redis.command) (w : World) :
  redis (snd (send cmd w))
  = if Redis.online (redis w) then snd (Redis.exec cmd (redis w)) else redis w.
Proof.
  unfold send. cbn [record_sent redis]. destruct (Redis.online (redis w)); [| done].
  by destruct (Redis.exec cmd (redis w)) as [[] ?].
Qed.

Lemma volatile_set `{Host} (c : FastCache) (key : string) (v : value) (ex : option Z) (w : World) :
  volatile (redis w) -> volatile (redis (snd (Cache.set c key v ex w))).
Proof.
  intros Hv. unfold Cache.set, bind, lift.
  destruct (client_arg v) as [arg | e]; cbn [ret throw]; [| exact Hv].
  rewrite send_redis. destruct (Redis.online (redis w)); [| exact Hv].
  by apply volatile_exec_set.
Qed.

Lemma volatile_setAll (c : FastCache) (obj : list (string * string)) (w : World) :
  volatile (redis w) -> volatile (redis (snd (Cache.setAll c obj w))).
Proof.
  intros Hv. unfold Cache.setAll, bind, send_multi. simpl.
  destruct (Redis.online (redis w)); simpl; [| exact Hv].
  by apply volatile_exec_all_set.
Qed.

Lemma setAll_sent (c : FastCache) (obj : list (string * string)) (w : World) :
  sent (snd (Cache.setAll c obj w))
  = sent w ++ map (fun kv => Redis.SET (fst kv) (snd kv) (ttl c)) obj.
Proof.
  unfold Cache.setAll, bind, send_multi. simpl.
  by destruct (Redis.online (redis w)).
Qed.

Lemma set_written `{Host} (c : FastCache) (key s : string) (ex : option Z) (w : World) :
  Redis.online (redis w) = true ->
  0 < or_default ex (ttl c) ->
  redis (snd (Cache.set c key (VStr s) ex w))
  = Redis.put (redis w) key
      (Redis.Entry (Redis.RString s)
         (Some (Redis.now (redis w) + 1000 * or_default ex (ttl c)))).
Proof.
  intros Hon Hex. unfold Cache.set, bind, lift, client_arg, ret, send. simpl.
  rewrite Hon. destruct (Z.leb_spec (or_default ex (ttl c)) 0); [lia | done].
Qed.

(** C9, as the code has it: [set] sends SET with EX, where the expiry is the
    explicit argument when it is given and not zero and the default TTL of
    the facade otherwise; [setAll] sends one SET with EX and the default TTL
    for every pair; the default TTL is the configured one when it is given
    and not zero and 300 otherwise; a server all of whose entries carry an
    expiry stays so under [set] and [setAll]. *)
Theorem scalar_writes_carry_expiry `{Host} (c : FastCache) (key s : string)
    (v : value) (ex : option Z) (obj : list (string * string)) (opts : FastCacheOpts)
    (w : World) :
  volatile (redis w) ->
  sent (snd (Cache.set c key (VStr s) ex w))
  = sent w ++ [Redis.SET key s (or_default ex (ttl c))]
  /\ (forall n, ex = Some n -> n <> 0 -> or_default ex (ttl c) = n)
  /\ (ex = None \/ ex = Some 0 -> or_default ex (ttl c) = ttl c)
  /\ (Redis.online (redis w) = true -> 0 < or_default ex (ttl c) ->
        Redis.db (redis (snd (Cache.set c key (VStr s) ex w))) !! key
        = Some (Redis.Entry (Redis.RString s)
                  (Some (Redis.now (redis w) + 1000 * or_default ex (ttl c)))))
  /\ sent (snd (Cache.setAll c obj w))
     = sent w ++ map (fun kv => Redis.SET (fst kv) (snd kv) (ttl c)) obj
  /\ ttl (Cache.init opts) = or_default (opt_ttl opts) 300
  /\ volatile (redis (snd (Cache.set c key v ex w)))
  /\ volatile (redis (snd (Cache.setAll c obj w))).
Proof.
  intros Hv. split; [apply set_sent |]. split.
  { intros n -> Hn. simpl. destruct (Z.eqb_spec n 0); [done | done]. }
  split.
  { intros [-> | ->]; reflexivity. }
  split.
  { intros Hon Hex. rewrite (set_written c key s ex w Hon Hex). simpl.
    apply lookup_insert_eq. }
  split; [apply setAll_sent |]. split; [reflexivity |].
  split; [by apply volatile_set | by apply volatile_setAll].
Qed.

Lemma volatile_empty : volatile (redis sample_world).
Proof. apply map_Forall_empty. Defined.

Lemma scalar_writes_carry_expiry_witness :
  volatile (redis sample_world)
  /\ Redis.db (redis (snd (Cache.set sample_cache "k" (VStr "v") (Some 7) sample_world))) !! "k"
     = Some (Redis.Entry (Redis.RString "v") (Some 7000)).
Proof.
  split; [exact volatile_empty |].
  pose proof (scalar_writes_carry_expiry sample_cache "k" "v" VNull (Some 7) []
                (MkOpts None None) sample_world volatile_empty)
    as (_ & _ & _ & Hdb & _).
  apply Hdb; reflexivity.
Defined.

(** C9, counterexample: with the explicit expiry 0, [set] does not use it:
    the command carries the default TTL of 300 seconds and the entry
    expires after five minutes. *)
Lemma set_ignores_zero_expiry :
  sent (snd (Cache.set sample_cache "k" (VStr "v") (Some 0) sample_world))
  = [Redis.SET "k" "v" 300]
  /\ sent (snd (Cache.set sample_cache "k" (VStr "v") (Some 0) sample_world))
     <> [Redis.SET "k" "v" 0]
  /\ Redis.live (redis (snd (Cache.set sample_cache "k" (VStr "v") (Some 0) sample_world))) "k"
     = Some (Redis.Entry (Redis.RString "v") (Some 300000)).
Proof. split; [reflexivity |]. split; [discriminate | reflexivity]. Qed.

(** ** Locks *)

Lemma redlock_unlock_match (l : Lock) (w : World) :
  Redis.online (redis w) = true ->
  Redis.string_at (redis w) (resource l) = Some (token l) ->
  Redlock.unlock l w
  = (Return tt,
     with_redis (record_sent [Redis.DEL_IF_EQ (resource l) (token l)] w)
       (Redis.drop_key (redis w) (resource l))).
Proof.
  intros Hon Hat. unfold Redlock.unlock, bind, send. cbn [record_sent redis].
  rewrite Hon. cbn [Redis.exec]. rewrite Hat, String.eqb_refl. done.
Qed.

Lemma redlock_unlock_mismatch (l : Lock) (w : World) :
  Redis.online (redis w) = true ->
  Redis.string_at (redis w) (resource l) <> Some (token l) ->
  Redlock.unlock l w
  = (Throw LockOwnershipError, record_sent [Redis.DEL_IF_EQ (resource l) (token l)] w).
Proof.
  intros Hon Hat. unfold Redlock.unlock, bind, send. cbn [record_sent redis].
  rewrite Hon. cbn [Redis.exec].
  destruct (Redis.string_at (redis w) (resource l)) as [s |] eqn:Hs.
  - destruct (String.eqb_spec s (token l)) as [-> | Hne]; [done |].
    unfold throw. by rewrite (with_redis_same (record_sent _ w)).
  - unfold throw. by rewrite (with_redis_same (record_sent _ w)).
Qed.

(** C7: the facade keeps one handle and [unlock] takes none.  Two holders
    share a facade: the first takes the lease on L and is given the handle
    [first]; the lease ends, the second takes L and is given [second], with
    another token, which the store now holds.  A release with the first
    holder's handle is refused with [LockOwnershipError] and leaves the
    lease; but [unlock()], called by the first holder, releases the handle
    kept last: it answers [true] and deletes the lease of the second.  On a
    facade that holds no handle, [unlock()] fails with the TypeError of
    calling a method of [undefined], not with [LockOwnershipError], and
    sends nothing. *)
Theorem unlock_releases_the_latest_lease :
  match Cache.lock (Cache.turnOnLock sample_cache) "L" sample_world with
  | (Return first, c1, w1) =>
      locker c1 = Some first
      /\ match Cache.lock c1 "L" (advance_world 1001 w1) with
         | (Return second, c2, w2) =>
             token first <> token second
             /\ Redis.string_at (redis w2) "L" = Some (token second)
             /\ fst (Redlock.unlock first w2) = Throw LockOwnershipError
             /\ Redis.string_at (redis (snd (Redlock.unlock first w2))) "L"
                = Some (token second)
             /\ locker c2 = Some second
             /\ fst (Cache.unlock c2 w2) = Return true
             /\ Redis.live (redis (snd (Cache.unlock c2 w2))) "L" = None
         | _ => False
         end
  | _ => False
  end
  /\ locker (Cache.turnOnLock sample_cache) = None
  /\ Cache.unlock (Cache.turnOnLock sample_cache) sample_world
     = (Throw NotAnObject, sample_world)
  /\ fst (Cache.unlock (Cache.turnOnLock sample_cache) sample_world)
     <> Throw LockOwnershipError.
Proof.
  split; [vm_compute; repeat split; discriminate |].
  split; [reflexivity |]. split; [reflexivity | discriminate].
Qed.

(** ** Scenarios of the test suite and of the spec *)

(** [set] then [get] gives the value back; after [remove] the key is gone. *)
Example set_get_remove :
  fst ((_ <- Cache.set sample_cache "hello" (VStr "world") None ;;
        Cache.get sample_cache "hello") sample_world) = Return (Some "world")
  /\ fst ((_ <- Cache.set sample_cache "hello" (VStr "world") None ;;
           _ <- Cache.remove sample_cache "hello" ;;
           Cache.get sample_cache "hello") sample_world) = Return None.
Proof. split; reflexivity. Qed.

(** An entry written with the default TTL is gone once the TTL is over. *)
Example entry_expires_after_ttl :
  fst (Cache.get sample_cache "hello"
         (advance_world 299999
            (snd (Cache.set sample_cache "hello" (VStr "world") None sample_world))))
  = Return (Some "world")
  /\ fst (Cache.get sample_cache "hello"
            (advance_world 300000
               (snd (Cache.set sample_cache "hello" (VStr "world") None sample_world))))
     = Return None.
Proof. split; reflexivity. Qed.

(** [unshift] one, [push] two: the list is one, two; [shift] takes one and
    [pop] takes two. *)
Example list_scenario :
  fst ((_ <- ListOperations.unshift sample_cache "bar" "one" ;;
        _ <- ListOperations.push sample_cache "bar" "two" ;;
        ListOperations.getAll sample_cache "bar" None None) sample_world)
  = Return (Redis.Multi [Redis.Bulk "one"; Redis.Bulk "two"])
  /\ fst ((_ <- ListOperations.unshift sample_cache "bar" "one" ;;
           _ <- ListOperations.push sample_cache "bar" "two" ;;
           a <- ListOperations.shift sample_cache "bar" ;;
           b <- ListOperations.pop sample_cache "bar" ;;
           rest <- ListOperations.getAll sample_cache "bar" None None ;;
           ret (a, b, rest)) sample_world)
     = Return (Redis.Bulk "one", Redis.Bulk "two", Redis.Multi []).
Proof. split; reflexivity. Qed.

(** The [pop] test: after [lpush hello foo bar], [pop] gives foo, bar, null. *)
Example list_pop_test :
  fst ((_ <- send (Redis.LPUSH "hello" ["foo"; "bar"]) ;;
        a <- ListOperations.pop sample_cache "hello" ;;
        b <- ListOperations.pop sample_cache "hello" ;;
        d <- ListOperations.pop sample_cache "hello" ;;
        ret [a; b; d]) sample_world)
  = Return [Redis.Bulk "foo"; Redis.Bulk "bar"; Redis.Nil].
Proof. reflexivity. Qed.

(** The [map] tests. *)
Example map_scenario :
  fst ((_ <- MapOperations.set sample_cache "hello" "foo" "bar" ;;
        _ <- MapOperations.set sample_cache "hello" "baz" "qux" ;;
        MapOperations.getAll sample_cache "hello" ["foo"; "baz"; "__not_found__"]) sample_world)
  = Return (Redis.Multi [Redis.Bulk "bar"; Redis.Bulk "qux"; Redis.Nil]).
Proof. vm_compute. reflexivity. Qed.

(** The [setOf] tests. *)
Example set_scenario :
  fst ((_ <- SetOperations.add sample_cache "hello" ["foo"; "bar"; "baz"] ;;
        _ <- SetOperations.add sample_cache "hello" ["bar"; "baz"; "qux"] ;;
        _ <- SetOperations.remove sample_cache "hello" ["foo"] ;;
        a <- SetOperations.contains sample_cache "hello" "foo" ;;
        b <- SetOperations.contains sample_cache "hello" "qux" ;;
        ret (a, b)) sample_world)
  = Return (Redis.Int 0, Redis.Int 1).
Proof. vm_compute. reflexivity. Qed.

(** A second acquire of a held lease is refused; after the release, or once
    the lease has expired, it succeeds. *)
Example lock_scenario :
  fst (fst (Cache.lock held_cache "L" held_world)) = Throw LockContention
  /\ fst (fst (Cache.lock held_cache "L" (snd (Cache.unlock held_cache held_world))))
     = Return (MkLock "L" "x#" 1000)
  /\ fst (fst (Cache.lock held_cache "L" (advance_world 1000 held_world)))
     = Return (MkLock "L" "x#" 2000)
  /\ fst (fst (Cache.lock sample_cache "L" sample_world)) = Throw NotAnObject.
Proof. vm_compute. repeat split. Qed.

(** A lease that has expired and was taken again by another process is not
    deleted by the stale handle. *)
Example stale_handle_leaves_foreign_lease :
  let other := Redis.put (Redis.advance 1000 (redis held_world)) "L"
                 (Redis.Entry (Redis.RString "other") (Some 2000)) in
  fst (Cache.unlock held_cache (with_redis held_world other)) = Throw LockOwnershipError
  /\ Redis.string_at (redis (snd (Cache.unlock held_cache (with_redis held_world other)))) "L"
     = Some "other".
Proof. vm_compute. split; reflexivity. Qed.

(** The cache key of the test suite is stable, and the values that
    [JSON.stringify] has no text for make [cacheKey] throw. *)
Example cacheKey_examples :
  Cache.cacheKey (VArr [VNum 1; VNum 2]) = Ok "uHSpyyNvyIpjb61lakAeI7ZDANo="
  /\ Cache.cacheKey VUndefined = Exn InvalidArgType.
Proof. vm_compute. split; reflexivity. Qed.

(** After the first call and one turn of the event loop, a second call is
    served from the store and does not look at its computation. *)
Example withCache_round_trip :
  let first := Cache.withCache sample_cache "k"
                 (Fulfilled (VObj [("id", VNum 7); ("tags", VArr [VStr "a"; VNull])]))
                 sample_world in
  let later := Cache.run_immediates sample_cache (snd first) in
  let second := Cache.withCache sample_cache "k" Unsettled later in
  fst first = Return (VObj [("id", VNum 7); ("tags", VArr [VStr "a"; VNull])])
  /\ fst second = Return (VObj [("id", VNum 7); ("tags", VArr [VStr "a"; VNull])])
  /\ executor_reads (snd second) = 1%nat
  /\ console later = [DebugReply "set ok" (Redis.Status "OK")].
Proof. vm_compute. repeat split. Qed.

(** With the connection closed by the time the callback runs, the refusal
    of the write goes to the debug log and nowhere else. *)
Example persistence_failure_is_logged :
  let first := Cache.withCache sample_cache "k" (Fulfilled (VNum 1)) sample_world in
  let away := with_redis (snd first) (Redis.Server (Redis.db (redis (snd first))) 5 false) in
  let later := Cache.run_immediates sample_cache away in
  fst first = Return (VNum 1)
  /\ console later = [DebugError "set error" ConnectionError]
  /\ Redis.db (redis later) = Redis.db (redis sample_world)
  /\ immediates later = [].
Proof. vm_compute. repeat split. Qed.


(** * Further properties of the facade *)

(** ** Client calls *)

Lemma send_online (cmd : Redis.command) (w : World) :
  Redis.online (redis w) = true ->
  send cmd w
  = (completion_of_reply (fst (Redis.exec cmd (redis w))),
     with_redis (record_sent [cmd] w) (snd (Redis.exec cmd (redis w)))).
Proof.
  intros Hon. unfold send. cbn [record_sent redis]. rewrite Hon.
  by destruct (Redis.exec cmd (redis w)) as [[] ?].
Qed.

Lemma send_offline (cmd : Redis.command) (w : World) :
  Redis.online (redis w) = false ->
  send cmd w = (Throw ConnectionError, record_sent [cmd] w).
Proof. intros Hoff. unfold send. cbn [record_sent redis]. by rewrite Hoff. Qed.

Lemma now_put (σ : Redis.server) (key : string) (e : Redis.entry) :
  Redis.now (Redis.put σ key e) = Redis.now σ.
Proof. done. Qed.

Lemma live_advance_put (σ : Redis.server) (key s : string) (t ms : Z) :
  Redis.live (Redis.advance ms (Redis.put σ key (Redis.Entry (Redis.RString s) (Some t)))) key
  = if t <=? Redis.now σ + ms then None
    else Some (Redis.Entry (Redis.RString s) (Some t)).
Proof.
  unfold Redis.live, Redis.advance, Redis.put, Redis.with_db, Redis.expired. simpl.
  by rewrite lookup_insert_eq.
Qed.

(** ** Scalar values *)

(** X1: a value written by [set] is what [get] answers until the expiry is
    over, and [null] from then on, whatever was at the key before. *)
Theorem set_then_get `{Host} (c : FastCache) (key s : string) (ex : option Z)
    (ms : Z) (w : World) :
  Redis.online (redis w) = true ->
  0 < or_default ex (ttl c) ->
  fst (Cache.set c key (VStr s) ex w) = Return (Redis.Status "OK")
  /\ fst (Cache.get c key (advance_world ms (snd (Cache.set c key (VStr s) ex w))))
     = Return (if ms <? 1000 * or_default ex (ttl c) then Some s else None).
Proof.
  intros Hon Hex.
  assert (Hset : Cache.set c key (VStr s) ex w
                 = (Return (Redis.Status "OK"),
                    with_redis (record_sent [Redis.SET key s (or_default ex (ttl c))] w)
                      (Redis.put (redis w) key
                         (Redis.Entry (Redis.RString s)
                            (Some (Redis.now (redis w) + 1000 * or_default ex (ttl c))))))).
  { unfold Cache.set, bind, lift, client_arg, ret.
    rewrite (send_online _ w Hon), exec_set by exact Hex. done. }
  rewrite Hset. split; [done |]. cbn [fst snd].
  set (w1 := advance_world ms _).
  assert (Hon1 : Redis.online (redis w1) = true) by exact Hon.
  assert (Hlive : Redis.live (redis w1) key
                  = if ms <? 1000 * or_default ex (ttl c)
                    then Some (Redis.Entry (Redis.RString s)
                                 (Some (Redis.now (redis w) + 1000 * or_default ex (ttl c))))
                    else None).
  { unfold w1, advance_world. cbn [with_redis redis record_sent].
    rewrite live_advance_put.
    destruct (Z.leb_spec (Redis.now (redis w) + 1000 * or_default ex (ttl c))
                         (Redis.now (redis w) + ms));
      destruct (Z.ltb_spec ms (1000 * or_default ex (ttl c))); try lia; done. }
  destruct (ms <? 1000 * or_default ex (ttl c)).
  - by rewrite (get_string c key w1 s _ Hon1 Hlive).
  - by rewrite (get_absent c key w1 Hon1 Hlive).
Qed.

Lemma set_then_get_witness :
  Redis.online (redis (world_with "k" "old")) = true
  /\ 0 < or_default (Some 2) (ttl sample_cache)
  /\ fst (Cache.get sample_cache "k"
            (advance_world 1999
               (snd (Cache.set sample_cache "k" (VStr "new") (Some 2) (world_with "k" "old")))))
     = Return (Some "new")
  /\ fst (Cache.get sample_cache "k"
            (advance_world 2000
               (snd (Cache.set sample_cache "k" (VStr "new") (Some 2) (world_with "k" "old")))))
     = Return None.
Proof.
  split; [reflexivity |]. split; [reflexivity |]. split.
  - exact (proj2 (set_then_get sample_cache "k" "new" (Some 2) 1999 (world_with "k" "old")
                    eq_refl eq_refl)).
  - exact (proj2 (set_then_get sample_cache "k" "new" (Some 2) 2000 (world_with "k" "old")
                    eq_refl eq_refl)).
Defined.


Lemma set_redis `{Host} (c : FastCache) (key s : string) (ex : option Z) (w : World) :
  redis (snd (Cache.set c key (VStr s) ex w))
  = if Redis.online (redis w)
    then snd (Redis.exec (Redis.SET key s (or_default ex (ttl c))) (redis w))
    else redis w.
Proof. unfold Cache.set, bind, lift, client_arg, ret. apply send_redis. Qed.

Lemma remove_redis (c : FastCache) (key : string) (w : World) :
  redis (snd (Cache.remove c key w))
  = if Redis.online (redis w) then Redis.drop_key (redis w) key else redis w.
Proof.
  unfold Cache.remove. rewrite send_redis.
  destruct (Redis.online (redis w)); [apply exec_del_one | done].
Qed.

(** X2: [set] and [remove] change nothing at any other key. *)
Theorem set_and_remove_leave_other_keys `{Host} (c : FastCache) (key key' s : string)
    (ex : option Z) (w : World) :
  key <> key' ->
  Redis.db (redis (snd (Cache.set c key (VStr s) ex w))) !! key' = Redis.db (redis w) !! key'
  /\ Redis.db (redis (snd (Cache.remove c key w))) !! key' = Redis.db (redis w) !! key'.
Proof.
  intros Hne. rewrite set_redis, remove_redis.
  destruct (Redis.online (redis w)); [| done]. split.
  - cbn [Redis.exec]. destruct (or_default ex (ttl c) <=? 0); [done |].
    cbn. by rewrite lookup_insert_ne.
  - cbn. by rewrite lookup_delete_ne.
Qed.

Lemma set_and_remove_leave_other_keys_witness :
  "k" <> "other"
  /\ Redis.db (redis (snd (Cache.set sample_cache "k" (VStr "v") None (world_with "other" "x"))))
       !! "other"
     = Some (Redis.Entry (Redis.RString "x") (Some 300000)).
Proof.
  assert (Hne : "k" <> "other") by discriminate.
  split; [exact Hne |].
  exact (proj1 (set_and_remove_leave_other_keys sample_cache "k" "other" "v" None
                  (world_with "other" "x") Hne)).
Defined.

(** X3: [remove] answers 1 when the key was there and 0 when it was not, and
    afterwards the key is gone: [get] answers [null]. *)
Theorem remove_then_get (c : FastCache) (key : string) (w : World) :
  Redis.online (redis w) = true ->
  fst (Cache.remove c key w)
  = Return (Redis.Int (match Redis.live (redis w) key with Some _ => 1 | None => 0 end))
  /\ Redis.db (redis (snd (Cache.remove c key w))) !! key = None
  /\ fst (Cache.get c key (snd (Cache.remove c key w))) = Return None.
Proof.
  intros Hon. unfold Cache.remove. rewrite (send_online _ w Hon). cbn [fst snd].
  assert (Hex : Redis.exec (Redis.DEL [key]) (redis w)
                = (Redis.Int (match Redis.live (redis w) key with Some _ => 1 | None => 0 end),
                   Redis.drop_key (redis w) key)).
  { cbn. unfold Redis.del_one. cbn. by destruct (Redis.live (redis w) key). }
  rewrite Hex. cbn [fst snd completion_of_reply].
  split; [done |]. split; [apply lookup_delete_eq |].
  rewrite get_absent; [done | exact Hon | apply live_drop_key].
Qed.

Lemma remove_then_get_witness :
  Redis.online (redis (world_with "k" "v")) = true
  /\ fst (Cache.remove sample_cache "k" (world_with "k" "v")) = Return (Redis.Int 1)
  /\ fst (Cache.get sample_cache "k" (snd (Cache.remove sample_cache "k" (world_with "k" "v"))))
     = Return None.
Proof.
  destruct (remove_then_get sample_cache "k" (world_with "k" "v") eq_refl) as (H1 & _ & H3).
  split; [reflexivity |]. split; [exact H1 | exact H3].
Defined.


(** ** Bulk scalar operations *)

Lemma exec_all_set_now (obj : list (string * string)) (n : Z) (σ : Redis.server) :
  Redis.now (snd (Redis.exec_all (map (fun kv => Redis.SET (fst kv) (snd kv) n) obj) σ))
  = Redis.now σ
  /\ Redis.online (snd (Redis.exec_all (map (fun kv => Redis.SET (fst kv) (snd kv) n) obj) σ))
     = Redis.online σ.
Proof.
  revert σ. induction obj as [| [k v] obj IH]; intros σ; [done |].
  cbn [map Redis.exec_all snd fst]. destruct (IH (snd (Redis.exec (Redis.SET k v n) σ))) as [-> ->].
  cbn [Redis.exec]. by destruct (n <=? 0).
Qed.

Lemma exec_all_set_other (obj : list (string * string)) (n : Z) (σ : Redis.server)
    (key : string) :
  key ∉ map fst obj ->
  Redis.db (snd (Redis.exec_all (map (fun kv => Redis.SET (fst kv) (snd kv) n) obj) σ)) !! key
  = Redis.db σ !! key.
Proof.
  revert σ. induction obj as [| [k v] obj IH]; intros σ Hnot; [done |].
  cbn [map Redis.exec_all snd fst] in *.
  rewrite not_elem_of_cons in Hnot. destruct Hnot as [Hne Hnot].
  rewrite (IH _ Hnot). cbn [Redis.exec]. destruct (n <=? 0); [done |].
  cbn. by rewrite lookup_insert_ne.
Qed.

Lemma exec_all_set_member (obj : list (string * string)) (n : Z) (σ : Redis.server)
    (key v : string) :
  0 < n ->
  NoDup (map fst obj) ->
  (key, v) ∈ obj ->
  Redis.db (snd (Redis.exec_all (map (fun kv => Redis.SET (fst kv) (snd kv) n) obj) σ)) !! key
  = Some (Redis.Entry (Redis.RString v) (Some (Redis.now σ + 1000 * n))).
Proof.
  intros Hn. revert σ. induction obj as [| [k0 v0] obj IH]; intros σ Hnd Hin.
  - by apply elem_of_nil in Hin.
  - cbn [map fst] in Hnd. apply NoDup_cons in Hnd as [Hfresh Hnd].
    cbn [map Redis.exec_all snd fst].
    rewrite exec_set by exact Hn. cbn [snd].
    apply elem_of_cons in Hin as [Heq | Hin].
    + injection Heq as -> ->.
      rewrite (exec_all_set_other obj n _ k0 Hfresh). cbn. apply lookup_insert_eq.
    + rewrite (IH _ Hnd Hin). by rewrite now_put.
Qed.

Lemma setAll_world (c : FastCache) (obj : list (string * string)) (w : World) :
  Redis.online (redis w) = true ->
  Cache.setAll c obj w
  = (Return tt,
     with_redis (record_sent (map (fun kv => Redis.SET (fst kv) (snd kv) (ttl c)) obj) w)
       (snd (Redis.exec_all (map (fun kv => Redis.SET (fst kv) (snd kv) (ttl c)) obj)
               (redis w)))).
Proof.
  intros Hon. unfold Cache.setAll, bind, send_multi. cbn [record_sent redis].
  by rewrite Hon.
Qed.

(** X4: after [setAll], every key of the object reads back as its value,
    each entry expiring one default TTL later; keys outside the object are
    left as they were. *)
Theorem setAll_then_get (c : FastCache) (obj : list (string * string)) (key v : string)
    (w : World) :
  Redis.online (redis w) = true ->
  0 < ttl c ->
  NoDup (map fst obj) ->
  fst (Cache.setAll c obj w) = Return tt
  /\ ((key, v) ∈ obj ->
        Redis.db (redis (snd (Cache.setAll c obj w))) !! key
        = Some (Redis.Entry (Redis.RString v) (Some (Redis.now (redis w) + 1000 * ttl c)))
        /\ fst (Cache.get c key (snd (Cache.setAll c obj w))) = Return (Some v))
  /\ (key ∉ map fst obj ->
        Redis.db (redis (snd (Cache.setAll c obj w))) !! key = Redis.db (redis w) !! key).
Proof.
  intros Hon Httl Hnd. rewrite (setAll_world c obj w Hon). cbn [fst snd].
  split; [done |]. split.
  - intros Hin. cbn [with_redis redis].
    pose proof (exec_all_set_member obj (ttl c) (redis w) key v Httl Hnd Hin) as Hdb.
    split; [exact Hdb |].
    erewrite get_string; [done | |].
    + cbn [with_redis redis]. by rewrite (proj2 (exec_all_set_now obj (ttl c) (redis w))).
    + cbn [with_redis redis]. unfold Redis.live. rewrite Hdb.
      rewrite (proj1 (exec_all_set_now obj (ttl c) (redis w))).
      unfold Redis.expired. cbn.
      destruct (Z.leb_spec (Redis.now (redis w) + 1000 * ttl c) (Redis.now (redis w)));
        [lia | done].
  - intros Hnot. cbn [with_redis redis]. by apply exec_all_set_other.
Qed.

Lemma setAll_then_get_witness :
  Redis.online (redis sample_world) = true
  /\ 0 < ttl sample_cache
  /\ NoDup (map fst [("a", "1"); ("b", "2")])
  /\ fst (Cache.get sample_cache "b"
            (snd (Cache.setAll sample_cache [("a", "1"); ("b", "2")] sample_world)))
     = Return (Some "2").
Proof.
  assert (Hnd : NoDup (map fst [("a", "1"); ("b", "2")])).
  { compute_done. }
  assert (Hin : ("b", "2") ∈ [("a", "1"); ("b", "2")]).
  { compute_done. }
  split; [reflexivity |]. split; [reflexivity |]. split; [exact Hnd |].
  destruct (setAll_then_get sample_cache [("a", "1"); ("b", "2")] "b" "2" sample_world
              eq_refl eq_refl Hnd) as (_ & Hmem & _).
  exact (proj2 (Hmem Hin)).
Defined.





Lemma getAll_world (c : FastCache) (keys : list string) (w : World) :
  Redis.online (redis w) = true ->
  keys <> [] ->
  Cache.getAll c keys w
  = (Return (Redis.Multi (map (fun k => Redis.bulk_or_nil (Redis.string_at (redis w) k)) keys)),
     record_sent [Redis.MGET keys] w).
Proof.
  intros Hon Hne. unfold Cache.getAll. rewrite (send_online _ w Hon).
  destruct keys as [| k keys]; [done |]. cbn [Redis.exec fst snd completion_of_reply].
  by rewrite (with_redis_same (record_sent _ w)).
Qed.

Lemma get_of_string_at (c : FastCache) (key : string) (w : World) :
  Redis.online (redis w) = true ->
  match fst (Cache.get c key w) with
  | Return (Some s) => Redis.string_at (redis w) key = Some s
  | _ => Redis.string_at (redis w) key = None
  end.
Proof.
  intros Hon. unfold Cache.get, bind. rewrite (send_online _ w Hon).
  unfold Redis.string_at. cbn [Redis.exec fst snd].
  by destruct (Redis.live (redis w) key) as [[[] ?] |].
Qed.

(** X6: [getAll] answers, position by position, what [get] answers on each
    key, with [null] where [get] answers [null] or is refused because the
    key holds a list, a map or a set; it never changes the store. *)
Theorem getAll_agrees_with_get (c : FastCache) (keys : list string) (w : World) :
  Redis.online (redis w) = true ->
  keys <> [] ->
  fst (Cache.getAll c keys w)
  = Return (Redis.Multi
              (map (fun k => match fst (Cache.get c k w) with
                             | Return (Some s) => Redis.Bulk s
                             | _ => Redis.Nil
                             end) keys))
  /\ redis (snd (Cache.getAll c keys w)) = redis w.
Proof.
  intros Hon Hne. rewrite (getAll_world c keys w Hon Hne). split; [| done].
  cbn [fst]. do 2 f_equal. apply map_ext. intros k.
  pose proof (get_of_string_at c k w Hon) as Hk.
  destruct (fst (Cache.get c k w)) as [[s |] | |]; by rewrite Hk.
Qed.

Lemma getAll_agrees_with_get_witness :
  Redis.online (redis (world_with "k" "v")) = true
  /\ ["k"; "missing"] <> []
  /\ fst (Cache.getAll sample_cache ["k"; "missing"] (world_with "k" "v"))
     = Return (Redis.Multi [Redis.Bulk "v"; Redis.Nil]).
Proof.
  assert (Hne : ["k"; "missing"] <> []) by discriminate.
  split; [reflexivity |]. split; [exact Hne |].
  exact (proj1 (getAll_agrees_with_get sample_cache ["k"; "missing"] (world_with "k" "v")
                  eq_refl Hne)).
Defined.

(** X7: what [setAll] has written, [getAll] on the keys of the object reads
    back in the same order. *)
Theorem setAll_then_getAll (c : FastCache) (obj : list (string * string)) (w : World) :
  Redis.online (redis w) = true ->
  0 < ttl c ->
  NoDup (map fst obj) ->
  obj <> [] ->
  fst (Cache.getAll c (map fst obj) (snd (Cache.setAll c obj w)))
  = Return (Redis.Multi (map (fun kv => Redis.Bulk (snd kv)) obj)).
Proof.
  intros Hon Httl Hnd Hne.
  assert (Hon' : Redis.online (redis (snd (Cache.setAll c obj w))) = true).
  { rewrite (setAll_world c obj w Hon). cbn [snd with_redis redis].
    by rewrite (proj2 (exec_all_set_now obj (ttl c) (redis w))). }
  rewrite getAll_world; [| exact Hon' | by destruct obj].
  cbn [fst]. do 2 f_equal. rewrite map_map. apply map_ext_in. intros [k v] Hin.
  apply list_elem_of_In in Hin.
  destruct (setAll_then_get c obj k v w Hon Httl Hnd) as (_ & Hmem & _).
  destruct (Hmem Hin) as [_ Hget].
  pose proof (get_of_string_at c k _ Hon') as Hk. rewrite Hget in Hk.
  cbn [fst snd]. by rewrite Hk.
Qed.

Lemma setAll_then_getAll_witness :
  Redis.online (redis sample_world) = true
  /\ 0 < ttl sample_cache
  /\ NoDup (map fst [("b", "2"); ("a", "1")])
  /\ [("b", "2"); ("a", "1")] <> []
  /\ fst (Cache.getAll sample_cache ["b"; "a"]
            (snd (Cache.setAll sample_cache [("b", "2"); ("a", "1")] sample_world)))
     = Return (Redis.Multi [Redis.Bulk "2"; Redis.Bulk "1"]).
Proof.
  assert (Hnd : NoDup (map fst [("b", "2"); ("a", "1")])) by compute_done.
  assert (Hne : [("b", "2"); ("a", "1")] <> []) by discriminate.
  split; [reflexivity |]. split; [reflexivity |]. split; [exact Hnd |].
  split; [exact Hne |].
  exact (setAll_then_getAll sample_cache [("b", "2"); ("a", "1")] sample_world
           eq_refl eq_refl Hnd Hne).
Defined.

Lemma foldl_del_one (keys : list string) (n : Z) (σ : Redis.server) :
  snd (foldl Redis.del_one (n, σ) keys) = foldl Redis.drop_key σ keys
  /\ n <= fst (foldl Redis.del_one (n, σ) keys) <= n + Z.of_nat (length keys).
Proof.
  revert n σ. induction keys as [| k keys IH]; intros n σ; [cbn; split; [done | lia] |].
  cbn [foldl length]. unfold Redis.del_one at 2 4 6. cbn [fst snd].
  destruct (Redis.live σ k).
  - destruct (IH (n + 1) (Redis.drop_key σ k)) as [-> Hn]. split; [done | lia].
  - destruct (IH n (Redis.drop_key σ k)) as [-> Hn]. split; [done | lia].
Qed.

Lemma foldl_drop_key_lookup (keys : list string) (σ : Redis.server) (key : string) :
  Redis.db (foldl Redis.drop_key σ keys) !! key
  = if bool_decide (key ∈ keys) then None else Redis.db σ !! key.
Proof.
  revert σ. induction keys as [| k keys IH]; intros σ; [done |].
  cbn [foldl]. rewrite IH. cbn.
  destruct (decide (key = k)) as [-> | Hne].
  - rewrite lookup_delete_eq.
    rewrite (bool_decide_eq_true_2 (k ∈ k :: keys)) by (apply elem_of_cons; by left).
    by destruct (bool_decide (k ∈ keys)).
  - rewrite lookup_delete_ne by done.
    destruct (decide (key ∈ keys)) as [Hin | Hnin].
    + rewrite (bool_decide_eq_true_2 (key ∈ keys)) by exact Hin.
      by rewrite (bool_decide_eq_true_2 (key ∈ k :: keys)) by (apply elem_of_cons; by right).
    + rewrite (bool_decide_eq_false_2 (key ∈ keys)) by exact Hnin.
      rewrite (bool_decide_eq_false_2 (key ∈ k :: keys)); [done |].
      rewrite elem_of_cons. by intros [? | ?].
Qed.

(** X8: [removeAll] removes every key of the list and no other; its answer
    is a count between 0 and the number of keys given. *)
Theorem removeAll_removes_the_keys (c : FastCache) (keys : list string) (key : string)
    (w : World) :
  Redis.online (redis w) = true ->
  keys <> [] ->
  (exists n, fst (Cache.removeAll c keys w) = Return (Redis.Int n)
             /\ 0 <= n <= Z.of_nat (length keys))
  /\ Redis.db (redis (snd (Cache.removeAll c keys w))) !! key
     = if bool_decide (key ∈ keys) then None else Redis.db (redis w) !! key.
Proof.
  intros Hon Hne. unfold Cache.removeAll. rewrite (send_online _ w Hon).
  destruct keys as [| k keys]; [done |]. clear Hne.
  cbn [Redis.exec fst snd completion_of_reply with_redis redis].
  destruct (foldl_del_one (k :: keys) 0 (redis w)) as [Hsnd Hfst].
  split.
  - eexists. split; [reflexivity | lia].
  - rewrite Hsnd. apply foldl_drop_key_lookup.
Qed.

Lemma removeAll_removes_the_keys_witness :
  Redis.online (redis (world_with "k" "v")) = true
  /\ ["k"; "k"; "other"] <> []
  /\ Redis.db (redis (snd (Cache.removeAll sample_cache ["k"; "k"; "other"]
                            (world_with "k" "v")))) !! "k" = None.
Proof.
  assert (Hne : ["k"; "k"; "other"] <> []) by discriminate.
  split; [reflexivity |]. split; [exact Hne |].
  exact (proj2 (removeAll_removes_the_keys sample_cache ["k"; "k"; "other"] "k"
                  (world_with "k" "v") eq_refl Hne)).
Defined.


(** ** More on [withCache] *)

(** X10: when the read of the key fails (the store is unreachable, or the
    key holds a list, a map or a set), [withCache] fails with the error of
    the read: it does not fall back to the computation, whose outcome it
    never looks at, and it queues nothing. *)
Theorem withCache_read_failure `{Host} (c : FastCache) (key : string) (e : error)
    (executor : promise) (w : World) :
  fst (Cache.get c key w) = Throw e ->
  Cache.withCache c key executor w = (Throw e, record_sent [Redis.GET key] w)
  /\ (Redis.online (redis w) = false -> e = ConnectionError).
Proof.
  intros Hget.
  assert (Hg : Cache.get c key w = (Throw e, record_sent [Redis.GET key] w)).
  { rewrite <- Hget, <- (get_world c key w). by destruct (Cache.get c key w). }
  split.
  - unfold Cache.withCache, bind at 1. by rewrite Hg.
  - intros Hoff. rewrite (get_offline c key w Hoff) in Hget. by injection Hget.
Qed.

Lemma withCache_read_failure_witness :
  fst (Cache.get sample_cache "jobs"
         (snd (ListOperations.push sample_cache "jobs" "a" sample_world)))
  = Throw (ReplyError "WRONGTYPE Operation against a key holding the wrong kind of value")
  /\ fst (Cache.withCache sample_cache "jobs" (Fulfilled (VNum 1))
            (snd (ListOperations.push sample_cache "jobs" "a" sample_world)))
     = Throw (ReplyError "WRONGTYPE Operation against a key holding the wrong kind of value").
Proof.
  split; [reflexivity |].
  exact (f_equal fst
           (proj1 (withCache_read_failure sample_cache "jobs" _ (Fulfilled (VNum 1))
                     (snd (ListOperations.push sample_cache "jobs" "a" sample_world))
                     eq_refl))).
Defined.






(** ** Lists *)

Lemma kept_expiry_not_expired (σ : Redis.server) (key : string) (c : Redis.rvalue) :
  Redis.expired (Redis.now σ) (Redis.Entry c (Redis.kept_expiry σ key)) = false.
Proof.
  unfold Redis.kept_expiry, Redis.live.
  destruct (Redis.db σ !! key) as [e |]; [| done].
  destruct (Redis.expired (Redis.now σ) e) eqn:He; [done |].
  unfold Redis.expired in *. cbn. exact He.
Qed.

Lemma live_put_content (σ : Redis.server) (key : string) (c : Redis.rvalue) :
  Redis.live (Redis.put_content σ key false c) key
  = Some (Redis.Entry c (Redis.kept_expiry σ key)).
Proof. unfold Redis.put_content. apply live_put, kept_expiry_not_expired. Qed.

Lemma as_list_put_content (σ : Redis.server) (key : string) (l : list string) :
  Redis.as_list (Redis.put_content σ key (Redis.list_is_empty l) (Redis.RList l)) key
  = Some l.
Proof.
  unfold Redis.as_list. destruct l as [| x l]; cbn [Redis.list_is_empty].
  - unfold Redis.put_content. by rewrite live_drop_key.
  - by rewrite live_put_content.
Qed.

Lemma list_is_empty_rev (l : list string) :
  Redis.list_is_empty (rev l) = Redis.list_is_empty l.
Proof.
  destruct l as [| a l]; [done |]. cbn.
  destruct (rev l ++ [a]) eqn:E; [| done].
  apply app_eq_nil in E as [_ E]. discriminate.
Qed.

Lemma put_content_other (σ : Redis.server) (key key' : string) (b : bool) (c : Redis.rvalue) :
  key <> key' ->
  Redis.db (Redis.put_content σ key b c) !! key' = Redis.db σ !! key'.
Proof.
  intros Hne. unfold Redis.put_content. destruct b; cbn;
    [by rewrite lookup_delete_ne | by rewrite lookup_insert_ne].
Qed.

(** X14: a list key behaves as a sequence with two ends: [push] adds at the
    right and [unshift] at the left, both answering the new length; [pop]
    takes from the right and [shift] from the left, and both answer [null]
    on an empty or missing list, which they leave as it is. *)
Theorem list_has_two_ends (c : FastCache) (key v : string) (l : list string) (w : World) :
  Redis.online (redis w) = true ->
  Redis.as_list (redis w) key = Some l ->
  (fst (ListOperations.push c key v w) = Return (Redis.Int (Z.of_nat (length l) + 1))
   /\ Redis.as_list (redis (snd (ListOperations.push c key v w))) key = Some (l ++ [v]))
  /\ (fst (ListOperations.unshift c key v w) = Return (Redis.Int (Z.of_nat (length l) + 1))
      /\ Redis.as_list (redis (snd (ListOperations.unshift c key v w))) key = Some (v :: l))
  /\ (forall l' x, l = l' ++ [x] ->
        fst (ListOperations.pop c key w) = Return (Redis.Bulk x)
        /\ Redis.as_list (redis (snd (ListOperations.pop c key w))) key = Some l')
  /\ (forall l' x, l = x :: l' ->
        fst (ListOperations.shift c key w) = Return (Redis.Bulk x)
        /\ Redis.as_list (redis (snd (ListOperations.shift c key w))) key = Some l')
  /\ (l = [] ->
        ListOperations.pop c key w = (Return Redis.Nil, record_sent [Redis.RPOP key] w)
        /\ ListOperations.shift c key w = (Return Redis.Nil, record_sent [Redis.LPOP key] w)).
Proof.
  intros Hon Hl.
  unfold ListOperations.push, ListOperations.unshift, ListOperations.pop, ListOperations.shift.
  rewrite !(send_online _ w Hon). cbn [Redis.exec]. rewrite Hl.
  split; [| split; [| split; [| split]]].
  - cbn [fst snd completion_of_reply with_redis redis]. split.
    + rewrite length_app. cbn. do 2 f_equal. lia.
    + apply as_list_put_content.
  - cbn [rev app fst snd completion_of_reply with_redis redis]. split.
    + cbn. do 2 f_equal. lia.
    + apply (as_list_put_content (redis w) key (v :: l)).
  - intros l' x ->. rewrite rev_app_distr. cbn [rev app fst snd completion_of_reply].
    split; [done |]. cbn [with_redis redis].
    rewrite rev_involutive, list_is_empty_rev. apply as_list_put_content.
  - intros l' x ->. cbn [fst snd completion_of_reply with_redis redis].
    split; [done |]. apply as_list_put_content.
  - intros ->. cbn [rev fst snd completion_of_reply].
    by rewrite (with_redis_same (record_sent _ w)), (with_redis_same (record_sent _ w)).
Qed.

Lemma list_has_two_ends_witness :
  Redis.online (redis list_world) = true
  /\ Redis.as_list (redis list_world) "bar" = Some ["a"; "b"; "c"]
  /\ Redis.as_list (redis (snd (ListOperations.push sample_cache "bar" "x" list_world))) "bar"
     = Some ["a"; "b"; "c"; "x"]
  /\ Redis.as_list (redis (snd (ListOperations.unshift sample_cache "bar" "x" list_world))) "bar"
     = Some ["x"; "a"; "b"; "c"]
  /\ (fst (ListOperations.pop sample_cache "bar" list_world) = Return (Redis.Bulk "c")
      /\ Redis.as_list (redis (snd (ListOperations.pop sample_cache "bar" list_world))) "bar"
         = Some ["a"; "b"])
  /\ (fst (ListOperations.shift sample_cache "bar" list_world) = Return (Redis.Bulk "a")
      /\ Redis.as_list (redis (snd (ListOperations.shift sample_cache "bar" list_world))) "bar"
         = Some ["b"; "c"]).
Proof.
  destruct (list_has_two_ends sample_cache "bar" "x" ["a"; "b"; "c"] list_world
              eq_refl eq_refl) as ((_ & Hpush) & (_ & Hunshift) & Hpop & Hshift & _).
  split; [reflexivity |]. split; [reflexivity |].
  split; [exact Hpush |]. split; [exact Hunshift |].
  split; [exact (Hpop ["a"; "b"] "c" eq_refl) | exact (Hshift ["b"; "c"] "a" eq_refl)].
Defined.


Lemma put_content_online (σ : Redis.server) (key : string) (b : bool) (c : Redis.rvalue) :
  Redis.online (Redis.put_content σ key b c) = Redis.online σ.
Proof. unfold Redis.put_content. by destruct b. Qed.

Lemma unshift_each_spec (c : FastCache) (key : string) (xs l : list string) (w : World) :
  Redis.online (redis w) = true ->
  Redis.as_list (redis w) key = Some l ->
  exists w', unshift_each c key xs w = (Return tt, w')
             /\ Redis.online (redis w') = true
             /\ Redis.as_list (redis w') key = Some (rev xs ++ l).
Proof.
  revert l w. induction xs as [| x xs IH]; intros l w Hon Hl.
  - exists w. by repeat split.
  - cbn [unshift_each]. unfold bind, ListOperations.unshift.
    rewrite (send_online _ w Hon). cbn [Redis.exec]. rewrite Hl.
    cbn [rev app fst snd completion_of_reply].
    destruct (IH (x :: l) (with_redis (record_sent [Redis.LPUSH key [x]] w)
                 (Redis.put_content (redis w) key (Redis.list_is_empty (x :: l))
                    (Redis.RList (x :: l))))) as (w' & Hrun & Hon' & Hl').
    + cbn [with_redis redis]. by rewrite put_content_online.
    + cbn [with_redis redis]. apply (as_list_put_content (redis w) key (x :: l)).
    + exists w'. rewrite Hrun. split; [done |]. split; [done |].
      rewrite Hl'. by rewrite <- app_assoc.
Qed.

Lemma pop_times_spec (c : FastCache) (key : string) (ys l : list string) (w : World) :
  Redis.online (redis w) = true ->
  Redis.as_list (redis w) key = Some (l ++ rev ys) ->
  exists w', pop_times c key (length ys) w = (Return (map Redis.Bulk ys), w')
             /\ Redis.online (redis w') = true
             /\ Redis.as_list (redis w') key = Some l.
Proof.
  revert w. induction ys as [| y ys IH]; intros w Hon Hl.
  - exists w. cbn in Hl. rewrite app_nil_r in Hl. by repeat split.
  - cbn [length pop_times]. unfold bind at 1, ListOperations.pop.
    rewrite (send_online _ w Hon). cbn [Redis.exec]. rewrite Hl.
    cbn [rev]. rewrite app_assoc, rev_app_distr. cbn [rev app fst snd completion_of_reply].
    rewrite rev_involutive, list_is_empty_rev.
    destruct (IH (with_redis (record_sent [Redis.RPOP key] w)
                 (Redis.put_content (redis w) key (Redis.list_is_empty (l ++ rev ys))
                    (Redis.RList (l ++ rev ys))))) as (w' & Hrun & Hon' & Hl').
    + cbn [with_redis redis]. by rewrite put_content_online.
    + cbn [with_redis redis]. apply as_list_put_content.
    + exists w'. unfold bind. rewrite Hrun. by repeat split.
Qed.

(** X15: [unshift] to enqueue and [pop] to dequeue make the list a FIFO
    queue: values unshifted one after the other onto a list come out of
    [pop], after what the list held before, in the order they went in, and
    the list ends up empty. *)
Theorem unshift_then_pop_is_fifo (c : FastCache) (key : string) (xs l : list string)
    (w : World) :
  Redis.online (redis w) = true ->
  Redis.as_list (redis w) key = Some l ->
  fst ((_ <- unshift_each c key xs ;; pop_times c key (length (rev l ++ xs))) w)
  = Return (map Redis.Bulk (rev l ++ xs))
  /\ Redis.as_list
       (redis (snd ((_ <- unshift_each c key xs ;;
                     pop_times c key (length (rev l ++ xs))) w))) key
     = Some [].
Proof.
  intros Hon Hl. unfold bind.
  destruct (unshift_each_spec c key xs l w Hon Hl) as (w1 & -> & Hon1 & Hl1).
  destruct (pop_times_spec c key (rev l ++ xs) [] w1 Hon1) as (w2 & -> & _ & Hl2).
  - cbn [app]. by rewrite rev_app_distr, rev_involutive.
  - done.
Qed.

Lemma unshift_then_pop_is_fifo_witness :
  Redis.online (redis sample_world) = true
  /\ Redis.as_list (redis sample_world) "q" = Some []
  /\ fst ((_ <- unshift_each sample_cache "q" ["a"; "b"; "c"] ;;
           pop_times sample_cache "q" 3) sample_world)
     = Return [Redis.Bulk "a"; Redis.Bulk "b"; Redis.Bulk "c"].
Proof.
  split; [reflexivity |]. split; [reflexivity |].
  exact (proj1 (unshift_then_pop_is_fifo sample_cache "q" ["a"; "b"; "c"] [] sample_world
                  eq_refl eq_refl)).
Defined.

Lemma slice_all (l : list string) : Redis.slice l 0 (-1) = l.
Proof.
  unfold Redis.slice, Redis.window. cbn [Z.ltb Z.compare].
  destruct l as [| x l]; [done |].
  set (len := Z.of_nat (length (x :: l))).
  assert (Hlen : 0 < len) by (unfold len; cbn [length]; lia).
  destruct (Z.ltb_spec (-1 + len) 0); [lia |].
  destruct (Z.leb_spec len 0); [lia |]. cbn [orb fst snd].
  replace (-1 + len - 0 + 1) with len by lia.
  unfold len. rewrite Nat2Z.id. cbn [Z.to_nat drop]. apply firstn_all.
Qed.

Lemma slice_last_to_first (l : list string) :
  Redis.slice l (-1) 0 = match l with [_] => l | _ => [] end.
Proof.
  destruct l as [| x [| y l]]; [done | done |].
  unfold Redis.slice, Redis.window.
  set (len := Z.of_nat (length (x :: y :: l))).
  assert (Hlen : 2 <= len) by (unfold len; cbn [length]; lia).
  cbn [Z.ltb Z.compare].
  replace (Z.max 0 (-1 + len)) with (len - 1) by lia.
  replace (Z.min 0 (len - 1)) with 0 by lia.
  destruct (Z.ltb_spec 0 (len - 1)); [done | lia].
Qed.

Lemma slice_is_part (l : list string) (start stop : Z) :
  exists before after, l = before ++ Redis.slice l start stop ++ after.
Proof.
  unfold Redis.slice.
  set (w := Redis.window _ _ _).
  exists (take (Z.to_nat (fst w)) l), (drop (Z.to_nat (snd w)) (drop (Z.to_nat (fst w)) l)).
  by rewrite take_drop, take_drop.
Qed.

(** X16: [getAll] without arguments answers the whole list (nothing for a
    missing key), and with any two indices a run of consecutive items of
    the list; it never changes the store. *)
Theorem list_getAll_answers_a_part (c : FastCache) (key : string) (l : list string)
    (start stop : option Z) (w : World) :
  Redis.online (redis w) = true ->
  Redis.as_list (redis w) key = Some l ->
  ListOperations.getAll c key None None w
  = (Return (Redis.Multi (map Redis.Bulk l)), record_sent [Redis.LRANGE key 0 (-1)] w)
  /\ (exists before part after,
        l = before ++ part ++ after
        /\ fst (ListOperations.getAll c key start stop w)
           = Return (Redis.Multi (map Redis.Bulk part)))
  /\ redis (snd (ListOperations.getAll c key start stop w)) = redis w.
Proof.
  intros Hon Hl. unfold ListOperations.getAll. rewrite !(send_online _ w Hon).
  cbn [Redis.exec default]. rewrite Hl. cbn [fst snd completion_of_reply].
  split; [| split].
  - by rewrite slice_all, (with_redis_same (record_sent _ w)).
  - destruct (slice_is_part l (default 0 start) (default (-1) stop)) as (b & a & Hpart).
    by exists b, (Redis.slice l (default 0 start) (default (-1) stop)), a.
  - done.
Qed.

Lemma list_getAll_answers_a_part_witness :
  Redis.online (redis list_world) = true
  /\ Redis.as_list (redis list_world) "bar" = Some ["a"; "b"; "c"]
  /\ fst (ListOperations.getAll sample_cache "bar" None None list_world)
     = Return (Redis.Multi [Redis.Bulk "a"; Redis.Bulk "b"; Redis.Bulk "c"])
  /\ fst (ListOperations.getAll sample_cache "bar" (Some 1) (Some 1) list_world)
     = Return (Redis.Multi [Redis.Bulk "b"])
  /\ (exists before part after,
        ["a"; "b"; "c"] = before ++ part ++ after
        /\ fst (ListOperations.getAll sample_cache "bar" (Some 1) (Some 1) list_world)
           = Return (Redis.Multi (map Redis.Bulk part)))
  /\ redis (snd (ListOperations.getAll sample_cache "bar" (Some 1) (Some 1) list_world))
     = redis list_world.
Proof.
  destruct (list_getAll_answers_a_part sample_cache "bar" ["a"; "b"; "c"] (Some 1) (Some 1)
              list_world eq_refl eq_refl) as (Hall & Hpart & Hsame).
  split; [reflexivity |]. split; [reflexivity |].
  split; [exact (f_equal fst Hall) |]. split; [reflexivity |].
  split; [exact Hpart | exact Hsame].
Defined.

(** X17: [setAll] of a list does not replace the list: it puts the values,
    last one first, in front of what the list holds. *)
Theorem list_setAll_prepends_reversed (c : FastCache) (key : string) (values l : list string)
    (w : World) :
  Redis.online (redis w) = true ->
  Redis.as_list (redis w) key = Some l ->
  values <> [] ->
  fst (ListOperations.setAll c key values w)
  = Return (Redis.Int (Z.of_nat (length values + length l)))
  /\ fst (ListOperations.getAll c key None None (snd (ListOperations.setAll c key values w)))
     = Return (Redis.Multi (map Redis.Bulk (rev values ++ l))).
Proof.
  intros Hon Hl Hne. unfold ListOperations.setAll. rewrite (send_online _ w Hon).
  destruct values as [| v values]; [done |]. cbn [Redis.exec]. rewrite Hl.
  cbn [fst snd completion_of_reply]. split.
  - rewrite length_app, length_rev. done.
  - set (w1 := with_redis _ _).
    assert (Hon1 : Redis.online (redis w1) = true).
    { unfold w1. cbn [with_redis redis]. by rewrite put_content_online. }
    assert (Hl1 : Redis.as_list (redis w1) key = Some (rev (v :: values) ++ l)).
    { unfold w1. cbn [with_redis redis]. apply as_list_put_content. }
    by rewrite (proj1 (list_getAll_answers_a_part c key _ None None w1 Hon1 Hl1)).
Qed.

Lemma list_setAll_prepends_reversed_witness :
  Redis.online (redis sample_world) = true
  /\ Redis.as_list (redis sample_world) "bar" = Some []
  /\ ["a"; "b"] <> []
  /\ fst (ListOperations.getAll sample_cache "bar" None None
            (snd (ListOperations.setAll sample_cache "bar" ["a"; "b"] sample_world)))
     = Return (Redis.Multi [Redis.Bulk "b"; Redis.Bulk "a"]).
Proof.
  assert (Hne : ["a"; "b"] <> []) by discriminate.
  split; [reflexivity |]. split; [reflexivity |]. split; [exact Hne |].
  exact (proj2 (list_setAll_prepends_reversed sample_cache "bar" ["a"; "b"] [] sample_world
                  eq_refl eq_refl Hne)).
Defined.

(** X18: [removeAll] without arguments trims the list to the window from
    its last item to its first: a list of two or more items is emptied, a
    list of exactly one item keeps that item. *)
Theorem list_removeAll_default_window (c : FastCache) (key : string) (l : list string)
    (w : World) :
  Redis.online (redis w) = true ->
  Redis.as_list (redis w) key = Some l ->
  fst (ListOperations.removeAll c key None None w) = Return (Redis.Status "OK")
  /\ Redis.as_list (redis (snd (ListOperations.removeAll c key None None w))) key
     = Some (match l with [_] => l | _ => [] end).
Proof.
  intros Hon Hl. unfold ListOperations.removeAll. rewrite (send_online _ w Hon).
  cbn [Redis.exec default]. rewrite Hl. cbn [fst snd completion_of_reply with_redis redis].
  split; [done |]. rewrite slice_last_to_first. apply as_list_put_content.
Qed.

Lemma list_removeAll_default_window_witness :
  Redis.online (redis sample_world) = true
  /\ Redis.as_list (redis (snd (ListOperations.push sample_cache "bar" "one" sample_world)))
       "bar" = Some ["one"]
  /\ Redis.as_list
       (redis (snd (ListOperations.removeAll sample_cache "bar" None None
                      (snd (ListOperations.push sample_cache "bar" "one" sample_world)))))
       "bar" = Some ["one"].
Proof.
  split; [reflexivity |]. split; [reflexivity |].
  exact (proj2 (list_removeAll_default_window sample_cache "bar" ["one"]
                  (snd (ListOperations.push sample_cache "bar" "one" sample_world))
                  eq_refl eq_refl)).
Defined.


(** ** Maps *)

Lemma as_hash_put_content (σ : Redis.server) (key : string) (h : gmap string string) :
  Redis.as_hash (Redis.put_content σ key (bool_decide (h = ∅)) (Redis.RHash h)) key = Some h.
Proof.
  unfold Redis.as_hash. destruct (decide (h = ∅)) as [-> | Hne].
  - rewrite bool_decide_eq_true_2 by done. unfold Redis.put_content.
    by rewrite live_drop_key.
  - rewrite bool_decide_eq_false_2 by done. by rewrite live_put_content.
Qed.

Lemma as_hash_put_false (σ : Redis.server) (key : string) (h : gmap string string) :
  Redis.as_hash (Redis.put_content σ key false (Redis.RHash h)) key = Some h.
Proof. unfold Redis.as_hash. by rewrite live_put_content. Qed.

(** X19: a map key behaves as a finite map from fields to values: after
    [set] of a field, [get] answers the new value for that field and what
    it answered before for any other; [set] answers 1 for a new field and 0
    for a known one; [remove] takes the field out and answers whether it
    was there; [length] counts the fields; [get] of a missing field answers
    [null]. *)
Theorem map_fields_round_trip (c : FastCache) (key field field' value : string)
    (h : gmap string string) (w : World) :
  Redis.online (redis w) = true ->
  Redis.as_hash (redis w) key = Some h ->
  fst (MapOperations.get c key field w) = Return (Redis.bulk_or_nil (h !! field))
  /\ fst (MapOperations.length c key w) = Return (Redis.Int (Z.of_nat (size h)))
  /\ fst (MapOperations.set c key field value w)
     = Return (Redis.Int (match h !! field with Some _ => 0 | None => 1 end))
  /\ fst (MapOperations.get c key field' (snd (MapOperations.set c key field value w)))
     = Return (if decide (field = field') then Redis.Bulk value
               else Redis.bulk_or_nil (h !! field'))
  /\ fst (MapOperations.remove c key field w)
     = Return (Redis.Int (match h !! field with Some _ => 1 | None => 0 end))
  /\ fst (MapOperations.get c key field' (snd (MapOperations.remove c key field w)))
     = Return (if decide (field = field') then Redis.Nil
               else Redis.bulk_or_nil (h !! field')).
Proof.
  intros Hon Hh.
  unfold MapOperations.get, MapOperations.length, MapOperations.set, MapOperations.remove.
  rewrite !(send_online _ w Hon). cbn [Redis.exec]. rewrite Hh.
  cbn [fst snd completion_of_reply foldl].
  split; [by destruct (h !! field) |]. split; [done |].
  split; [by destruct (h !! field) |]. split; [| split].
  - set (w1 := with_redis _ _).
    assert (Hon1 : Redis.online (redis w1) = true).
    { unfold w1. cbn [with_redis redis]. by rewrite put_content_online. }
    rewrite (send_online _ w1 Hon1). cbn [Redis.exec].
    unfold w1 at 1. cbn [with_redis redis]. rewrite as_hash_put_false.
    cbn [fst completion_of_reply]. rewrite lookup_insert.
    destruct (decide (field = field')); [done |].
    by destruct (h !! field').
  - rewrite map_size_delete. destruct (h !! field) eqn:Hf; cbn [id pred]; [| do 2 f_equal; lia].
    assert (size h <> 0%nat).
    { apply map_size_non_empty_iff. intros ->. by rewrite lookup_empty in Hf. }
    do 2 f_equal. lia.
  - set (w1 := with_redis _ _).
    assert (Hon1 : Redis.online (redis w1) = true).
    { unfold w1. cbn [with_redis redis]. by rewrite put_content_online. }
    rewrite (send_online _ w1 Hon1). cbn [Redis.exec].
    unfold w1 at 1. cbn [with_redis redis]. rewrite as_hash_put_content.
    cbn [fst completion_of_reply]. rewrite lookup_delete.
    destruct (decide (field = field')); [done |].
    by destruct (h !! field').
Qed.

Lemma map_fields_round_trip_witness :
  Redis.online (redis sample_world) = true
  /\ Redis.as_hash (redis sample_world) "baz" = Some ∅
  /\ fst (MapOperations.get sample_cache "baz" "one"
            (snd (MapOperations.set sample_cache "baz" "one" "first" sample_world)))
     = Return (Redis.Bulk "first").
Proof.
  split; [reflexivity |]. split; [reflexivity |].
  destruct (map_fields_round_trip sample_cache "baz" "one" "one" "first" ∅ sample_world
              eq_refl eq_refl) as (_ & _ & _ & Hget & _).
  exact Hget.
Defined.

Lemma foldl_insert_other (obj : list (string * string)) (h : gmap string string)
    (field : string) :
  field ∉ map fst obj ->
  foldl (fun m p => <[fst p := snd p]> m) h obj !! field = h !! field.
Proof.
  revert h. induction obj as [| [f v] obj IH]; intros h Hnot; [done |].
  cbn [map fst foldl snd] in *. apply not_elem_of_cons in Hnot as [Hne Hnot].
  rewrite (IH _ Hnot). by rewrite lookup_insert_ne.
Qed.

Lemma foldl_insert_member (obj : list (string * string)) (h : gmap string string)
    (field value : string) :
  NoDup (map fst obj) ->
  (field, value) ∈ obj ->
  foldl (fun m p => <[fst p := snd p]> m) h obj !! field = Some value.
Proof.
  revert h. induction obj as [| [f v] obj IH]; intros h Hnd Hin.
  - by apply elem_of_nil in Hin.
  - cbn [map fst] in Hnd. apply NoDup_cons in Hnd as [Hfresh Hnd].
    cbn [foldl fst snd]. apply elem_of_cons in Hin as [Heq | Hin].
    + injection Heq as -> ->. rewrite (foldl_insert_other obj _ f Hfresh).
      apply lookup_insert_eq.
    + by apply IH.
Qed.

(** X20: after [setAll] of a map, [getAll] on the fields of the object
    answers their values in the same order, and a field that the object
    does not name keeps the value it had. *)
Theorem map_setAll_then_getAll (c : FastCache) (key field : string)
    (obj : list (string * string)) (h : gmap string string) (w : World) :
  Redis.online (redis w) = true ->
  Redis.as_hash (redis w) key = Some h ->
  NoDup (map fst obj) ->
  obj <> [] ->
  fst (MapOperations.setAll c key obj w) = Return (Redis.Status "OK")
  /\ fst (MapOperations.getAll c key (map fst obj) (snd (MapOperations.setAll c key obj w)))
     = Return (Redis.Multi (map (fun p => Redis.Bulk (snd p)) obj))
  /\ (field ∉ map fst obj ->
        fst (MapOperations.get c key field (snd (MapOperations.setAll c key obj w)))
        = Return (Redis.bulk_or_nil (h !! field))).
Proof.
  intros Hon Hh Hnd Hne.
  unfold MapOperations.setAll, MapOperations.getAll, MapOperations.get.
  rewrite (send_online _ w Hon).
  destruct obj as [| p obj]; [done |]. cbn [Redis.exec]. rewrite Hh.
  cbn [fst snd completion_of_reply]. split; [done |].
  set (h' := foldl _ h (p :: obj)).
  set (w1 := with_redis _ _).
  assert (Hon1 : Redis.online (redis w1) = true).
  { unfold w1. cbn [with_redis redis]. by rewrite put_content_online. }
  assert (Hh1 : Redis.as_hash (redis w1) key = Some h').
  { unfold w1. cbn [with_redis redis]. apply as_hash_put_content. }
  rewrite !(send_online _ w1 Hon1). cbn [map fst Redis.exec]. rewrite Hh1.
  cbn [fst completion_of_reply]. split.
  - assert (Hmap : map (fun f => Redis.bulk_or_nil (h' !! f)) (map fst (p :: obj))
                   = map (fun q => Redis.Bulk (snd q)) (p :: obj)).
    { rewrite map_map. apply map_ext_in. intros [f v] Hin. apply list_elem_of_In in Hin.
      cbn [fst snd]. unfold h'. rewrite (foldl_insert_member (p :: obj) h f v Hnd Hin). reflexivity. }
    exact (f_equal (fun l => Return (Redis.Multi l)) Hmap).
  - intros Hnot. unfold h'. rewrite (foldl_insert_other (p :: obj) h field Hnot).
    by destruct (h !! field).
Qed.

Lemma map_setAll_then_getAll_witness :
  Redis.online (redis sample_world) = true
  /\ Redis.as_hash (redis sample_world) "baz" = Some ∅
  /\ NoDup (map fst [("one", "first"); ("two", "second")])
  /\ [("one", "first"); ("two", "second")] <> []
  /\ fst (MapOperations.getAll sample_cache "baz" ["one"; "two"]
            (snd (MapOperations.setAll sample_cache "baz"
                    [("one", "first"); ("two", "second")] sample_world)))
     = Return (Redis.Multi [Redis.Bulk "first"; Redis.Bulk "second"]).
Proof.
  assert (Hnd : NoDup (map fst [("one", "first"); ("two", "second")])) by compute_done.
  assert (Hne : [("one", "first"); ("two", "second")] <> []) by discriminate.
  split; [reflexivity |]. split; [reflexivity |]. split; [exact Hnd |].
  split; [exact Hne |].
  destruct (map_setAll_then_getAll sample_cache "baz" "x"
              [("one", "first"); ("two", "second")] ∅ sample_world
              eq_refl eq_refl Hnd Hne) as (_ & Hget & _).
  exact Hget.
Defined.

(** ** Sets *)

Lemma as_set_put_content (σ : Redis.server) (key : string) (s : gset string) :
  Redis.as_set (Redis.put_content σ key (bool_decide (s = ∅)) (Redis.RSet s)) key = Some s.
Proof.
  unfold Redis.as_set. destruct (decide (s = ∅)) as [-> | Hne].
  - rewrite bool_decide_eq_true_2 by done. unfold Redis.put_content.
    by rewrite live_drop_key.
  - rewrite bool_decide_eq_false_2 by done. by rewrite live_put_content.
Qed.

(** X21: a set key behaves as a finite set: after [add] every value given
    is a member and after [remove] none of them is, the other values being
    members as before; [add] answers how many values were new, so adding
    the same values again answers 0. *)
Theorem set_members_round_trip (c : FastCache) (key value : string) (values : list string)
    (s : gset string) (w : World) :
  Redis.online (redis w) = true ->
  Redis.as_set (redis w) key = Some s ->
  values <> [] ->
  fst (SetOperations.contains c key value w)
  = Return (Redis.Int (if bool_decide (value ∈ s) then 1 else 0))
  /\ fst (SetOperations.contains c key value (snd (SetOperations.add c key values w)))
     = Return (Redis.Int (if bool_decide (value ∈ s \/ value ∈ values) then 1 else 0))
  /\ fst (SetOperations.contains c key value (snd (SetOperations.remove c key values w)))
     = Return (Redis.Int (if bool_decide (value ∈ s /\ value ∉ values) then 1 else 0))
  /\ fst (SetOperations.add c key values (snd (SetOperations.add c key values w)))
     = Return (Redis.Int 0).
Proof.
  intros Hon Hs Hne.
  unfold SetOperations.contains, SetOperations.add, SetOperations.remove.
  rewrite !(send_online _ w Hon).
  destruct values as [| v values]; [done |]. clear Hne.
  cbn [Redis.exec]. rewrite Hs. cbn [fst snd completion_of_reply].
  split; [done |].
  set (added := s ∪ list_to_set (v :: values)).
  set (removed := s ∖ list_to_set (v :: values)).
  set (wa := with_redis _ (Redis.put_content _ _ _ (Redis.RSet added))).
  set (wr := with_redis _ (Redis.put_content _ _ _ (Redis.RSet removed))).
  assert (Hona : Redis.online (redis wa) = true).
  { unfold wa. cbn [with_redis redis]. by rewrite put_content_online. }
  assert (Honr : Redis.online (redis wr) = true).
  { unfold wr. cbn [with_redis redis]. by rewrite put_content_online. }
  assert (Hsa : Redis.as_set (redis wa) key = Some added).
  { unfold wa. cbn [with_redis redis]. apply as_set_put_content. }
  assert (Hsr : Redis.as_set (redis wr) key = Some removed).
  { unfold wr. cbn [with_redis redis]. apply as_set_put_content. }
  rewrite !(send_online _ wa Hona), (send_online _ wr Honr).
  cbn [Redis.exec]. rewrite Hsa, Hsr. cbn [fst completion_of_reply].
  split; [| split].
  - rewrite (bool_decide_ext (value ∈ added) (value ∈ s \/ value ∈ v :: values)); [done |].
    unfold added. by rewrite elem_of_union, elem_of_list_to_set.
  - rewrite (bool_decide_ext (value ∈ removed) (value ∈ s /\ value ∉ v :: values)); [done |].
    unfold removed. by rewrite elem_of_difference, elem_of_list_to_set.
  - unfold added. rewrite <- (assoc_L (∪)), (idemp_L (∪)).
    do 2 f_equal. lia.
Qed.

Lemma set_members_round_trip_witness :
  Redis.online (redis sample_world) = true
  /\ Redis.as_set (redis sample_world) "hello" = Some ∅
  /\ ["foo"; "bar"] <> []
  /\ fst (SetOperations.contains sample_cache "hello" "bar"
            (snd (SetOperations.add sample_cache "hello" ["foo"; "bar"] sample_world)))
     = Return (Redis.Int 1).
Proof.
  assert (Hne : ["foo"; "bar"] <> []) by discriminate.
  split; [reflexivity |]. split; [reflexivity |]. split; [exact Hne |].
  destruct (set_members_round_trip sample_cache "hello" "bar" ["foo"; "bar"] ∅ sample_world
              eq_refl eq_refl Hne) as (_ & Hadd & _).
  exact Hadd.
Defined.


(** ** Keys of another type *)

(** X22: the scalar and the collection accessors do not mix on one key.  On
    a key that holds a string every list, map and set call is refused by
    the server and changes nothing; on a key that holds a list, a map or a
    set, [get] is refused. *)
Theorem accessors_do_not_mix (c : FastCache) (key a b : string) (l : list string)
    (obj : list (string * string)) (i j : option Z) (e : Redis.entry) (w : World) :
  Redis.online (redis w) = true ->
  Redis.live (redis w) key = Some e ->
  match Redis.content e with
  | Redis.RString _ =>
      Forall (fun m : M Redis.reply =>
                fst (m w)
                = Throw (ReplyError
                           "WRONGTYPE Operation against a key holding the wrong kind of value")
                /\ redis (snd (m w)) = redis w)
        [ ListOperations.push c key a; ListOperations.pop c key;
          ListOperations.unshift c key a; ListOperations.shift c key;
          ListOperations.setAll c key (a :: l); ListOperations.getAll c key i j;
          ListOperations.removeAll c key i j; ListOperations.length c key;
          MapOperations.set c key a b; MapOperations.get c key a;
          MapOperations.remove c key a; MapOperations.setAll c key ((a, b) :: obj);
          MapOperations.getAll c key (a :: l); MapOperations.removeAll c key (a :: l);
          MapOperations.length c key;
          SetOperations.add c key (a :: l); SetOperations.remove c key (a :: l);
          SetOperations.contains c key a ]
  | _ =>
      Cache.get c key w
      = (Throw (ReplyError "WRONGTYPE Operation against a key holding the wrong kind of value"),
         record_sent [Redis.GET key] w)
  end.
Proof.
  intros Hon Hlive. destruct e as [[s | items | fields | members] t]; cbn [Redis.content].
  - unfold ListOperations.push, ListOperations.pop, ListOperations.unshift,
      ListOperations.shift, ListOperations.setAll, ListOperations.getAll,
      ListOperations.removeAll, ListOperations.length, MapOperations.set,
      MapOperations.get, MapOperations.remove, MapOperations.setAll, MapOperations.getAll,
      MapOperations.removeAll, MapOperations.length, SetOperations.add,
      SetOperations.remove, SetOperations.contains.
    repeat (constructor;
            [rewrite (send_online _ w Hon); cbn [Redis.exec];
             unfold Redis.as_list, Redis.as_hash, Redis.as_set; rewrite Hlive;
             split; reflexivity |]).
    constructor.
  - unfold Cache.get, bind. rewrite (send_online _ w Hon). cbn [Redis.exec]. rewrite Hlive.
    cbn. by rewrite (with_redis_same (record_sent _ w)).
  - unfold Cache.get, bind. rewrite (send_online _ w Hon). cbn [Redis.exec]. rewrite Hlive.
    cbn. by rewrite (with_redis_same (record_sent _ w)).
  - unfold Cache.get, bind. rewrite (send_online _ w Hon). cbn [Redis.exec]. rewrite Hlive.
    cbn. by rewrite (with_redis_same (record_sent _ w)).
Qed.

Lemma accessors_do_not_mix_witness :
  Redis.online (redis (world_with "k" "v")) = true
  /\ Redis.live (redis (world_with "k" "v")) "k"
     = Some (Redis.Entry (Redis.RString "v") (Some 300000))
  /\ fst (ListOperations.push sample_cache "k" "x" (world_with "k" "v"))
     = Throw (ReplyError "WRONGTYPE Operation against a key holding the wrong kind of value").
Proof.
  split; [reflexivity |]. split; [reflexivity |].
  pose proof (accessors_do_not_mix sample_cache "k" "x" "y" [] [] None None
                (Redis.Entry (Redis.RString "v") (Some 300000)) (world_with "k" "v")
                eq_refl eq_refl) as Hall.
  exact (proj1 (Forall_inv Hall)).
Defined.

(** ** More on locks *)

Lemma lock_free_name (c : FastCache) (key : string) (w : World) :
  redlock c = true ->
  0 < redlockttl c ->
  Redis.online (redis w) = true ->
  Redis.live (redis w) key = None ->
  Cache.lock c key w
  = (Return (MkLock key (Redlock.token_of (tokens w)) (Redis.now (redis w) + redlockttl c)),
     MkFastCache (prefix c) (ttl c) (redlock c) (redlockttl c)
       (Some (MkLock key (Redlock.token_of (tokens w)) (Redis.now (redis w) + redlockttl c))),
     MkWorld
       (Redis.put (redis w) key
          (Redis.Entry (Redis.RString (Redlock.token_of (tokens w)))
             (Some (Redis.now (redis w) + redlockttl c))))
       (sent w ++ [Redis.SET_NX_PX key (Redlock.token_of (tokens w)) (redlockttl c)])
       (immediates w) (console w) (executor_reads w) (S (tokens w))).
Proof.
  intros Hrl Httl Hon Hlive. unfold Cache.lock. rewrite Hrl.
  unfold Redlock.lock, bind, Redlock.take_token, Redlock.clock, send.
  cbn [record_sent redis]. rewrite Hon. cbn [Redis.exec].
  destruct (Z.leb_spec (redlockttl c) 0); [lia |]. by rewrite Hlive.
Qed.

(** X24: a lease taken with [lock] and given back with [unlock] before it
    ends frees the name: [unlock] answers [true], the entry is gone, and
    the next [lock] on the name succeeds. *)
Theorem lock_then_unlock_frees_the_name (c : FastCache) (key : string) (ms : Z) (w : World) :
  redlock c = true ->
  0 < redlockttl c ->
  Redis.online (redis w) = true ->
  Redis.live (redis w) key = None ->
  0 <= ms < redlockttl c ->
  fst (Cache.unlock (snd (fst (Cache.lock c key w)))
         (advance_world ms (snd (Cache.lock c key w))))
  = Return true
  /\ Redis.db (redis (snd (Cache.unlock (snd (fst (Cache.lock c key w)))
                             (advance_world ms (snd (Cache.lock c key w)))))) !! key
     = None
  /\ exists l,
       fst (fst (Cache.lock (snd (fst (Cache.lock c key w))) key
                   (snd (Cache.unlock (snd (fst (Cache.lock c key w)))
                           (advance_world ms (snd (Cache.lock c key w)))))))
       = Return l.
Proof.
  intros Hrl Httl Hon Hlive Hms. rewrite (lock_free_name c key w Hrl Httl Hon Hlive).
  cbn [fst snd]. set (l := MkLock key _ _). set (c' := MkFastCache _ _ _ _ _).
  set (w1 := advance_world ms _).
  assert (Hon1 : Redis.online (redis w1) = true) by exact Hon.
  assert (Hat : Redis.string_at (redis w1) (resource l) = Some (token l)).
  { unfold Redis.string_at, w1, advance_world. cbn [with_redis redis resource token l].
    rewrite live_advance_put.
    destruct (Z.leb_spec (Redis.now (redis w) + redlockttl c) (Redis.now (redis w) + ms));
      [lia | done]. }
  unfold Cache.unlock. cbn [locker c']. unfold bind.
  rewrite (redlock_unlock_match l w1 Hon1 Hat). cbn [fst snd ret].
  split; [done |]. split; [apply lookup_delete_eq |].
  set (w2 := with_redis _ _).
  assert (Hfree : Redis.live (redis w2) key = None) by apply live_drop_key.
  rewrite (lock_free_name c' key w2 Hrl Httl Hon1 Hfree). by eexists.
Qed.

Lemma lock_then_unlock_frees_the_name_witness :
  redlock (Cache.turnOnLock sample_cache) = true
  /\ 0 < redlockttl (Cache.turnOnLock sample_cache)
  /\ Redis.online (redis sample_world) = true
  /\ Redis.live (redis sample_world) "L" = None
  /\ 0 <= 999 < redlockttl (Cache.turnOnLock sample_cache)
  /\ fst (Cache.unlock held_cache (advance_world 999 held_world)) = Return true.
Proof.
  assert (Hms : 0 <= 999 < redlockttl (Cache.turnOnLock sample_cache)) by (cbn; lia).
  do 4 (split; [reflexivity |]). split; [exact Hms |].
  exact (proj1 (lock_then_unlock_frees_the_name (Cache.turnOnLock sample_cache) "L" 999
                  sample_world eq_refl eq_refl eq_refl eq_refl Hms)).
Defined.

(** X25: a lease is not renewed: once its time is over the name is free for
    anybody, and [unlock] with the old handle fails with
    [LockOwnershipError] and deletes nothing. *)
Theorem lease_ends_with_its_ttl (c : FastCache) (key : string) (ms : Z) (w : World) :
  redlock c = true ->
  0 < redlockttl c ->
  Redis.online (redis w) = true ->
  Redis.live (redis w) key = None ->
  redlockttl c <= ms ->
  Redis.live (redis (advance_world ms (snd (Cache.lock c key w)))) key = None
  /\ fst (Cache.unlock (snd (fst (Cache.lock c key w)))
            (advance_world ms (snd (Cache.lock c key w))))
     = Throw LockOwnershipError
  /\ redis (snd (Cache.unlock (snd (fst (Cache.lock c key w)))
                   (advance_world ms (snd (Cache.lock c key w)))))
     = redis (advance_world ms (snd (Cache.lock c key w))).
Proof.
  intros Hrl Httl Hon Hlive Hms. rewrite (lock_free_name c key w Hrl Httl Hon Hlive).
  cbn [fst snd]. set (l := MkLock key _ _). set (c' := MkFastCache _ _ _ _ _).
  set (w1 := advance_world ms _).
  assert (Hon1 : Redis.online (redis w1) = true) by exact Hon.
  assert (Hgone : Redis.live (redis w1) key = None).
  { unfold w1, advance_world. cbn [with_redis redis]. rewrite live_advance_put.
    destruct (Z.leb_spec (Redis.now (redis w) + redlockttl c) (Redis.now (redis w) + ms));
      [done | lia]. }
  assert (Hat : Redis.string_at (redis w1) (resource l) <> Some (token l)).
  { unfold Redis.string_at. cbn [resource l]. by rewrite Hgone. }
  split; [exact Hgone |].
  unfold Cache.unlock. cbn [locker c']. unfold bind.
  by rewrite (redlock_unlock_mismatch l w1 Hon1 Hat).
Qed.

Lemma lease_ends_with_its_ttl_witness :
  redlock (Cache.turnOnLock sample_cache) = true
  /\ 0 < redlockttl (Cache.turnOnLock sample_cache)
  /\ Redis.online (redis sample_world) = true
  /\ Redis.live (redis sample_world) "L" = None
  /\ redlockttl (Cache.turnOnLock sample_cache) <= 1000
  /\ fst (Cache.unlock held_cache (advance_world 1000 held_world)) = Throw LockOwnershipError.
Proof.
  assert (Hms : redlockttl (Cache.turnOnLock sample_cache) <= 1000) by (cbn; lia).
  do 4 (split; [reflexivity |]). split; [exact Hms |].
  exact (proj1 (proj2 (lease_ends_with_its_ttl (Cache.turnOnLock sample_cache) "L" 1000
                         sample_world eq_refl eq_refl eq_refl eq_refl Hms))).
Defined.


(** ** The lifetime of a cached result *)



(** ** The size of a cache key *)

(** X27: on Node every cache key is a text of 28 characters, the base64
    form of the 20 bytes of a SHA-1 digest, whatever the size of the
    value. *)
Theorem cacheKey_has_28_characters (o : value) (k : string) :
  Cache.cacheKey o = Ok k -> String.length k = 28%nat.
Proof.
  unfold Cache.cacheKey, sha1_update_digest_base64.
  destruct (Cache.serialize o) as [| | b | n | n | s | items | fields];
    intros Hk; try congruence.
  assert (Hk' : Ok (Node.base64 (Node.sha1 (utf8 s))) = Ok k) by exact Hk.
  assert (Hk'' : k = Node.base64 (Node.sha1 (utf8 s))) by congruence.
  rewrite Hk''. apply base64_length_20, sha1_length.
Qed.

Lemma cacheKey_has_28_characters_witness :
  Cache.cacheKey (VObj [("test", VNum 1)]) = Ok "0IjPMzN9x5tJczAzOeVnVWcl4yo="
  /\ String.length "0IjPMzN9x5tJczAzOeVnVWcl4yo=" = 28%nat.
Proof.
  assert (Hkey : Cache.cacheKey (VObj [("test", VNum 1)]) = Ok "0IjPMzN9x5tJczAzOeVnVWcl4yo=")
    by (vm_compute; reflexivity).
  split; [exact Hkey |].
  exact (cacheKey_has_28_characters (VObj [("test", VNum 1)])
           "0IjPMzN9x5tJczAzOeVnVWcl4yo=" Hkey).
Defined.


(** ** What survives [serialize] and [deserialize] *)

Lemma string_app_assoc (a b c : string) : ((a ++ b) ++ c = a ++ (b ++ c))%string.
Proof.
  induction a as [| x a IH]; [done |].
  change (String x ((a ++ b) ++ c) = String x (a ++ (b ++ c)))%string. by rewrite IH.
Qed.

Lemma string_length_app (a b : string) :
  String.length (a ++ b)%string = (String.length a + String.length b)%nat.
Proof.
  induction a as [| x a IH]; [done |].
  change (S (String.length (a ++ b)%string) = S (String.length a + String.length b)).
  by rewrite IH.
Qed.

Lemma parse_chars_escape_char (c : ascii) (tail : string) :
  Node.parse_chars (Node.escape_char c ++ tail)%string
  = Node.prepend (String c EmptyString) (Node.parse_chars tail).
Proof. destruct c as [[] [] [] [] [] [] [] []]; reflexivity. Qed.

Lemma parse_chars_escape (s rest : string) :
  Node.parse_chars (Node.escape s ++ String (Node.chr 34) rest)%string = Ok (s, rest).
Proof.
  induction s as [| c s IH]; [done |].
  cbn [Node.escape]. rewrite string_app_assoc, parse_chars_escape_char, IH. done.
Qed.

Lemma digits_stop (rest : string) (acc : Z) :
  stops rest = true -> Node.digits rest acc = (acc, rest).
Proof.
  intros Hstop. destruct rest as [| c rest]; [done |].
  change (Node.digits (String c rest) acc)
    with (if Node.is_digit c then Node.digits rest (10 * acc + Node.digit_val c)
          else (acc, String c rest)).
  unfold stops in Hstop. apply andb_true_iff in Hstop as [Hd _].
  apply negb_true_iff in Hd. by rewrite Hd.
Qed.

Lemma string_app_cons (c : ascii) (a b : string) :
  (String c a ++ b = String c (a ++ b))%string.
Proof. reflexivity. Qed.

Lemma digits_digit (c : ascii) (r : string) (acc : Z) :
  Node.is_digit c = true ->
  Node.digits (String c r) acc = Node.digits r (10 * acc + Node.digit_val c).
Proof.
  intros Hd.
  change (Node.digits (String c r) acc)
    with (if Node.is_digit c then Node.digits r (10 * acc + Node.digit_val c)
          else (acc, String c r)).
  by rewrite Hd.
Qed.

Lemma digits_string_of_uint (d : Decimal.uint) (acc : Z) (rest : string) :
  stops rest = true ->
  Node.digits (DecimalString.NilEmpty.string_of_uint d ++ rest)%string acc
  = (uint_value d acc, rest).
Proof.
  intros Hstop. revert acc.
  induction d as [| d IH | d IH | d IH | d IH | d IH | d IH | d IH | d IH | d IH | d IH];
    intros acc; [by apply digits_stop | ..];
    cbn [DecimalString.NilEmpty.string_of_uint uint_value];
    rewrite string_app_cons, digits_digit by reflexivity; rewrite IH; do 2 f_equal;
    vm_compute (Node.digit_val _); lia.
Qed.

Lemma uint_value_pos (d : Decimal.uint) (acc : positive) :
  uint_value d (Z.pos acc) = Z.pos (Pos.of_uint_acc d acc).
Proof.
  revert acc. induction d; intros acc; cbn [uint_value Pos.of_uint_acc]; [done | ..];
    rewrite <- IHd; f_equal; lia.
Qed.

Lemma uint_value_zero (d : Decimal.uint) : uint_value d 0 = Z.of_N (Pos.of_uint d).
Proof.
  induction d; cbn [uint_value Pos.of_uint]; [done | exact IHd | ..];
    cbn [Z.of_N]; rewrite <- uint_value_pos; reflexivity.
Qed.

Lemma to_uint_head (p : positive) :
  match Pos.to_uint p with
  | Decimal.Nil | Decimal.D0 _ => False
  | _ => True
  end.
Proof.
  pose proof (DecimalPos.Unsigned.to_of (Pos.to_uint p)) as Hnorm.
  rewrite DecimalPos.Unsigned.of_to in Hnorm. cbn [N.to_uint] in Hnorm.
  pose proof (DecimalPos.Unsigned.to_uint_nonnil p) as Hnil.
  pose proof (DecimalPos.Unsigned.to_uint_nonzero p) as Hzero.
  destruct (Pos.to_uint p) as [| u | | | | | | | | |]; try done.
  rewrite DecimalFacts.unorm_D0 in Hnorm.
  assert (Hu : u <> Decimal.Nil) by (intros ->; by apply Hzero).
  pose proof (DecimalFacts.nb_digits_unorm u Hu) as Hlen.
  rewrite <- Hnorm in Hlen. cbn in Hlen. lia.
Qed.


Lemma stops_no_fraction (rest : string) :
  stops rest = true -> Node.starts_fraction rest = false.
Proof.
  destruct rest as [| c rest]; [done |]. unfold stops. intros H.
  apply andb_true_iff in H as [_ H]. by apply negb_true_iff in H.
Qed.

Lemma skip_ws_start (c : ascii) (r : string) :
  value_start c = true -> Node.skip_ws (String c r) = String c r.
Proof. destruct c as [[] [] [] [] [] [] [] []]; intros H; try discriminate H; reflexivity. Qed.

Lemma start_is_no_bracket (c : ascii) :
  value_start c = true -> (Node.code c =? 93)%N = false /\ (Node.code c =? 125)%N = false.
Proof. destruct c as [[] [] [] [] [] [] [] []]; intros H; try discriminate H; by split. Qed.

Lemma parse_value_number (fuel : nat) (c : ascii) (r : string) :
  Node.is_digit c || (Node.code c =? 45)%N = true ->
  Node.parse_value (S fuel) (String c r) = Node.parse_number (String c r).
Proof. destruct c as [[] [] [] [] [] [] [] []]; intros H; try discriminate H; reflexivity. Qed.

Lemma parse_unsigned_pos (neg : bool) (p : positive) (rest : string) :
  stops rest = true ->
  Node.safe_integer (Z.pos p) = true ->
  Node.parse_unsigned neg
    (DecimalString.NilEmpty.string_of_uint (Pos.to_uint p) ++ rest)%string
  = Ok (VNum (if neg then - Z.pos p else Z.pos p), rest).
Proof.
  intros Hstop Hsafe.
  pose proof (digits_string_of_uint (Pos.to_uint p) 0 rest Hstop) as Hd.
  rewrite uint_value_zero, DecimalPos.Unsigned.of_to in Hd. cbn [Z.of_N] in Hd.
  pose proof (to_uint_head p) as Hhead.
  destruct (Pos.to_uint p) as [| u | u | u | u | u | u | u | u | u | u]; try done;
    cbn [DecimalString.NilEmpty.string_of_uint] in *; rewrite string_app_cons in *;
    unfold Node.parse_unsigned;
    change (Node.code _ =? 48)%N with false; change (Node.is_digit _) with true;
    cbn beta iota; rewrite Hd; cbn [fst snd]; unfold Node.finish_number;
    by rewrite (stops_no_fraction rest Hstop), Hsafe.
Qed.

Lemma decimal_pos (p : positive) :
  Node.decimal (Z.pos p) = DecimalString.NilEmpty.string_of_uint (Pos.to_uint p)
  /\ Node.decimal (Z.neg p)
     = String "-" (DecimalString.NilEmpty.string_of_uint (Pos.to_uint p)).
Proof.
  unfold Node.decimal. cbn [Z.to_int DecimalString.NilZero.string_of_int].
  unfold DecimalString.NilZero.string_of_uint.
  pose proof (to_uint_head p) as Hhead.
  by destruct (Pos.to_uint p).
Qed.

(** The text of a number parses back to the number. *)
Lemma parse_value_decimal (fuel : nat) (n : Z) (rest : string) :
  stops rest = true ->
  Node.safe_integer n = true ->
  Node.parse_value (S fuel) (Node.decimal n ++ rest)%string = Ok (VNum n, rest)
  /\ exists c s', Node.decimal n = String c s' /\ value_start c = true.
Proof.
  intros Hstop Hsafe. destruct n as [| p | p].
  - split; [| by exists "0"%char, EmptyString].
    change (Node.decimal 0) with "0". rewrite string_app_cons.
    rewrite parse_value_number by reflexivity.
    unfold Node.parse_number, Node.parse_unsigned.
    change (Node.code "0" =? 45)%N with false. change (Node.code "0" =? 48)%N with true.
    cbn beta iota. change (EmptyString ++ rest)%string with rest.
    unfold Node.finish_number. by rewrite (stops_no_fraction rest Hstop).
  - rewrite (proj1 (decimal_pos p)).
    pose proof (parse_unsigned_pos false p rest Hstop Hsafe) as Hp.
    pose proof (to_uint_head p) as Hhead.
    destruct (Pos.to_uint p) as [| u | u | u | u | u | u | u | u | u | u]; try done;
      cbn [DecimalString.NilEmpty.string_of_uint] in *; rewrite string_app_cons in *;
      (split; [| by eexists _, _]);
      rewrite parse_value_number by reflexivity;
      unfold Node.parse_number; change (Node.code _ =? 45)%N with false;
      cbn beta iota; exact Hp.
  - rewrite (proj2 (decimal_pos p)). split; [| by eexists _, _].
    rewrite string_app_cons. rewrite parse_value_number by reflexivity.
    unfold Node.parse_number. change (Node.code "-" =? 45)%N with true. cbn beta iota.
    apply (parse_unsigned_pos true p rest Hstop).
    unfold Node.safe_integer in *. apply andb_true_iff in Hsafe as [Hlo Hhi].
    apply Z.leb_le in Hlo. apply andb_true_iff. split; apply Z.leb_le; lia.
Qed.


Lemma json_size_arr (items : list value) : json_size (VArr items) = S (items_size items).
Proof. reflexivity. Qed.

Lemma json_size_obj (fields : list (string * value)) :
  json_size (VObj fields) = S (fields_size fields).
Proof. reflexivity. Qed.

Lemma json_clean_arr (items : list value) :
  json_clean (VArr items) = forallb json_clean items.
Proof. reflexivity. Qed.

Lemma json_clean_obj (fields : list (string * value)) :
  json_clean (VObj fields) = fields_clean fields.
Proof. reflexivity. Qed.

Lemma stringify_arr (items : list value) :
  Node.stringify (VArr items)
  = match arr_texts items with
    | Exn e => Exn e
    | Ok l => Ok (Some ("[" ++ Node.join l ++ "]")%string)
    end.
Proof. reflexivity. Qed.

Lemma stringify_obj (fields : list (string * value)) :
  Node.stringify (VObj fields)
  = match obj_texts fields with
    | Exn e => Exn e
    | Ok l => Ok (Some ("{" ++ Node.join l ++ "}")%string)
    end.
Proof. reflexivity. Qed.

Lemma parse_items_S (f : nat) (s : string) :
  Node.parse_items (S f) s
  = match Node.parse_value f s with
    | Exn e => Exn e
    | Ok (v, r) =>
        match Node.skip_ws r with
        | EmptyString => Exn ParseError
        | String c r' =>
            if (Node.code c =? 44)%N then
              match Node.parse_items f r' with
              | Ok (l, r'') => Ok (v :: l, r'')
              | Exn e => Exn e
              end
            else if (Node.code c =? 93)%N then Ok ([v], r')
            else Exn ParseError
        end
    end.
Proof. reflexivity. Qed.

Lemma parse_value_arr (f : nat) (r : string) :
  Node.parse_value (S f) (String "[" r)
  = match Node.skip_ws r with
    | EmptyString => Exn ParseError
    | String c' r' =>
        if (Node.code c' =? 93)%N then Ok (VArr [], r')
        else match Node.parse_items f r with
             | Ok (l, r'') => Ok (VArr l, r'')
             | Exn e => Exn e
             end
    end.
Proof. reflexivity. Qed.

Lemma parse_value_obj (f : nat) (r : string) :
  Node.parse_value (S f) (String "{" r)
  = match Node.skip_ws r with
    | EmptyString => Exn ParseError
    | String c' r' =>
        if (Node.code c' =? 125)%N then Ok (VObj [], r')
        else match Node.parse_members f r [] with
             | Ok (l, r'') => Ok (VObj l, r'')
             | Exn e => Exn e
             end
    end.
Proof. reflexivity. Qed.

Lemma parse_value_str (f : nat) (r : string) :
  Node.parse_value (S f) (String (Node.chr 34) r)
  = match Node.parse_chars r with
    | Ok (str, r') => Ok (VStr str, r')
    | Exn e => Exn e
    end.
Proof. reflexivity. Qed.

Lemma quote_app (k rest : string) :
  (Node.quote k ++ rest)%string
  = String (Node.chr 34) (Node.escape k ++ String (Node.chr 34) rest)%string.
Proof.
  unfold Node.quote. rewrite !string_app_assoc. reflexivity.
Qed.

Lemma quote_length (k : string) : (2 <= String.length (Node.quote k))%nat.
Proof.
  unfold Node.quote, Node.str1. rewrite !string_length_app. cbn [String.length]. lia.
Qed.

Lemma carried_scalars :
  carried VNull /\ (forall b, carried (VBool b))
  /\ (forall n, Node.safe_integer n = true -> carried (VNum n))
  /\ (forall s, carried (VStr s)).
Proof.
  split; [| split; [| split]].
  - exists "null". split; [done |]. split; [cbn; lia |].
    split; [by eexists _, _ |]. intros [| f] rest Hf _; [cbn in Hf; lia | reflexivity].
  - intros b. exists (if b then "true" else "false").
    split; [by destruct b |]. split; [destruct b; cbn; lia |].
    split; [destruct b; by eexists _, _ |].
    intros [| f] rest Hf _; [cbn in Hf; lia |]. by destruct b.
  - intros n Hsafe. exists (Node.decimal n).
    split; [cbn [Node.stringify]; by rewrite Hsafe |].
    destruct (parse_value_decimal 0 n EmptyString eq_refl Hsafe) as [_ (c & s' & Hs & Hc)].
    split; [rewrite Hs; cbn; lia |]. split; [by exists c, s' |].
    intros [| f] rest Hf Hstop; [cbn in Hf; lia |].
    apply (parse_value_decimal f n rest Hstop Hsafe).
  - intros s. exists (Node.quote s). split; [done |].
    split; [pose proof (quote_length s); cbn [json_size]; lia |].
    split; [by eexists _, _ |].
    intros [| f] rest Hf _; [cbn in Hf; lia |].
    by rewrite quote_app, parse_value_str, parse_chars_escape.
Qed.


Lemma join_cons (s t : string) (ts : list string) :
  Node.join (s :: t :: ts) = (s ++ String "," (Node.join (t :: ts)))%string.
Proof. reflexivity. Qed.

Lemma parse_items_more (f : nat) (s tail : string) (x : value) :
  Node.parse_value f s = Ok (x, String "," tail) ->
  Node.parse_items (S f) s
  = match Node.parse_items f tail with
    | Ok (l, r) => Ok (x :: l, r)
    | Exn e => Exn e
    end.
Proof. intros H. rewrite parse_items_S, H. reflexivity. Qed.

Lemma parse_items_last (f : nat) (s rest : string) (x : value) :
  Node.parse_value f s = Ok (x, String "]" rest) ->
  Node.parse_items (S f) s = Ok ([x], rest).
Proof. intros H. rewrite parse_items_S, H. reflexivity. Qed.

Lemma carried_items (items : list value) :
  Forall (fun x => json_clean x = true -> carried x) items ->
  forallb json_clean items = true ->
  exists texts,
    arr_texts items = Ok texts
    /\ (items_size items <= 2 * String.length (Node.join texts) + 1)%nat
    /\ (items = [] -> texts = [])
    /\ (items <> [] -> exists c s', Node.join texts = String c s' /\ value_start c = true)
    /\ forall fuel rest,
         items <> [] -> (items_size items <= fuel)%nat ->
         Node.parse_items fuel (Node.join texts ++ String "]" rest)%string
         = Ok (items, rest).
Proof.
  induction 1 as [| x r Hx _ IH]; intros Hclean.
  - exists []. repeat split; try done. cbn. lia.
  - cbn [forallb] in Hclean. apply andb_prop in Hclean as [Hcx Hcr].
    destruct (Hx Hcx) as (s & Hs & Hsize & (c & s' & Hc & Hstart) & Hparse).
    destruct (IH Hcr) as (ts & Hts & Hsizes & Hnil & Hhead & Hparses).
    exists (s :: ts). cbn [arr_texts]. rewrite Hs, Hts. cbn [default].
    split; [done |].
    destruct r as [| y r'].
    + rewrite (Hnil eq_refl). cbn [Node.join String.concat items_size].
      split; [lia |]. split; [done |]. split; [intros _; by exists c, s' |].
      intros [| f] rest _ Hf; [cbn in Hf; lia |].
      apply parse_items_last, Hparse; [cbn in Hf; lia | done].
    + destruct (Hhead ltac:(done)) as (c' & t' & Hjoin & Hstart').
      destruct ts as [| t ts']; [done |].
      rewrite join_cons. set (J := Node.join (t :: ts')) in *.
      cbn [items_size] in *.
      split; [rewrite string_length_app; cbn [String.length]; lia |].
      split; [done |].
      split; [intros _; exists c, (s' ++ String "," J)%string; by rewrite Hc |].
      intros [| f] rest _ Hf; [lia |].
      rewrite string_app_assoc, string_app_cons.
      rewrite parse_items_more with (x := x) (tail := (J ++ String "]" rest)%string).
      * rewrite Hparses; [done | done | lia].
      * apply Hparse; [lia | done].
Qed.


Lemma parse_members_quote (f : nat) (r : string) (acc : list (string * value)) :
  Node.parse_members (S f) (String (Node.chr 34) r) acc
  = match Node.parse_chars r with
    | Exn e => Exn e
    | Ok (k, r1) =>
        match Node.skip_ws r1 with
        | EmptyString => Exn ParseError
        | String colon r2 =>
            if (Node.code colon =? 58)%N then
              match Node.parse_value f r2 with
              | Exn e => Exn e
              | Ok (v, r3) =>
                  match Node.skip_ws r3 with
                  | EmptyString => Exn ParseError
                  | String c r4 =>
                      if (Node.code c =? 44)%N
                      then Node.parse_members f r4 (Node.obj_set acc k v)
                      else if (Node.code c =? 125)%N
                           then Ok (Node.obj_set acc k v, r4)
                           else Exn ParseError
                  end
              end
            else Exn ParseError
        end
    end.
Proof. reflexivity. Qed.

Lemma member_app (k s tail : string) :
  ((Node.quote k ++ ":" ++ s) ++ tail)%string
  = String (Node.chr 34)
      (Node.escape k ++ String (Node.chr 34) (String ":" (s ++ tail)))%string.
Proof. rewrite string_app_assoc, quote_app. reflexivity. Qed.

Lemma parse_members_more (f : nat) (k s tail : string) (x : value)
    (acc : list (string * value)) :
  Node.parse_value f (s ++ String "," tail)%string = Ok (x, String "," tail) ->
  Node.parse_members (S f) ((Node.quote k ++ ":" ++ s) ++ String "," tail)%string acc
  = Node.parse_members f tail (Node.obj_set acc k x).
Proof.
  intros H. rewrite member_app, parse_members_quote, parse_chars_escape.
  change (Node.skip_ws (String ":" ?r)) with (String ":" r).
  cbv beta iota. change (Node.code ":" =? 58)%N with true. cbv iota.
  rewrite H. reflexivity.
Qed.

Lemma parse_members_last (f : nat) (k s rest : string) (x : value)
    (acc : list (string * value)) :
  Node.parse_value f (s ++ String "}" rest)%string = Ok (x, String "}" rest) ->
  Node.parse_members (S f) ((Node.quote k ++ ":" ++ s) ++ String "}" rest)%string acc
  = Ok (Node.obj_set acc k x, rest).
Proof.
  intros H. rewrite member_app, parse_members_quote, parse_chars_escape.
  change (Node.skip_ws (String ":" ?r)) with (String ":" r).
  cbv beta iota. change (Node.code ":" =? 58)%N with true. cbv iota.
  rewrite H. reflexivity.
Qed.

Lemma has_key_app (k : string) (a b : list (string * value)) :
  Node.has_key k (a ++ b) = Node.has_key k a || Node.has_key k b.
Proof.
  induction a as [| [k' v] a IH]; [done |].
  cbn [app Node.has_key]. rewrite IH. by destruct (String.eqb k k').
Qed.

Lemma obj_set_fresh (acc : list (string * value)) (k : string) (v : value) :
  Node.has_key k acc = false -> Node.index_of k = None ->
  Node.obj_set acc k v = acc ++ [(k, v)].
Proof. intros H1 H2. unfold Node.obj_set. by rewrite H1, H2. Qed.

Lemma member_length (k s : string) :
  (String.length s + 3 <= String.length (Node.quote k ++ ":" ++ s))%nat.
Proof.
  rewrite !string_length_app. pose proof (quote_length k). cbn [String.length]. lia.
Qed.

Lemma carried_fields (fields : list (string * value)) :
  Forall (fun kv => json_clean (snd kv) = true -> carried (snd kv)) fields ->
  fields_clean fields = true ->
  exists texts,
    obj_texts fields = Ok texts
    /\ (fields_size fields <= 2 * String.length (Node.join texts) + 1)%nat
    /\ (fields = [] -> texts = [])
    /\ (fields <> [] -> exists s', Node.join texts = String (Node.chr 34) s')
    /\ forall fuel rest acc,
         fields <> [] -> (fields_size fields <= fuel)%nat ->
         (forall k, Node.has_key k fields = true -> Node.has_key k acc = false) ->
         Node.parse_members fuel (Node.join texts ++ String "}" rest)%string acc
         = Ok (acc ++ fields, rest).
Proof.
  induction 1 as [| [k x] r Hx _ IH]; intros Hclean.
  - exists []. repeat split; try done. cbn. lia.
  - cbn [fields_clean] in Hclean.
    apply andb_prop in Hclean as [Hclean Hcr].
    apply andb_prop in Hclean as [Hclean Hidx].
    apply andb_prop in Hclean as [Hcx Hfresh].
    apply negb_true_iff in Hfresh.
    assert (Hindex : Node.index_of k = None) by (by destruct (Node.index_of k)).
    cbn [snd] in Hx.
    destruct (Hx Hcx) as (s & Hs & Hsize & _ & Hparse).
    destruct (IH Hcr) as (ts & Hts & Hsizes & Hnil & Hhead & Hparses).
    exists ((Node.quote k ++ ":" ++ s)%string :: ts).
    cbn [obj_texts]. rewrite Hs, Hts.
    split; [done |].
    pose proof (member_length k s) as Hlen.
    assert (Hq : forall tail, exists s',
               ((Node.quote k ++ ":" ++ s) ++ tail)%string = String (Node.chr 34) s').
    { intros tail. rewrite member_app. by eexists. }
    destruct r as [| [k2 y] r'].
    + rewrite (Hnil eq_refl). cbn [Node.join String.concat fields_size].
      split; [lia |]. split; [done |].
      split.
      { intros _. destruct (Hq EmptyString) as [s' Hs'].
        exists s'. rewrite <- Hs'. clear. generalize (Node.quote k ++ ":" ++ s)%string.
        intros m. induction m as [| a m IHm]; [done |].
        rewrite string_app_cons. by rewrite <- IHm. }
      intros [| f] rest acc _ Hf Hacc; [cbn in Hf; lia |].
      rewrite parse_members_last with (x := x).
      * rewrite obj_set_fresh; [done | | done].
        apply Hacc. cbn [Node.has_key]. by rewrite String.eqb_refl.
      * apply Hparse; [cbn in Hf; lia | done].
    + destruct (Hhead ltac:(done)) as (t' & Hjoin).
      destruct ts as [| t ts']; [done |].
      rewrite join_cons. set (J := Node.join (t :: ts')) in *.
      cbn [fields_size] in *.
      split; [rewrite string_length_app; cbn [String.length]; lia |].
      split; [done |].
      split; [intros _; apply Hq |].
      intros [| f] rest acc _ Hf Hacc; [lia |].
      rewrite string_app_assoc, (string_app_cons "," J).
      rewrite parse_members_more with (x := x).
      * assert (Hk : Node.has_key k acc = false).
        { apply Hacc. cbn [Node.has_key]. by rewrite String.eqb_refl. }
        rewrite obj_set_fresh; [| done | done].
        rewrite Hparses; [by rewrite <- app_assoc | done | lia |].
        intros k' Hk'. rewrite has_key_app.
        rewrite (Hacc k'); [| cbn [Node.has_key] in *; rewrite Hk'; by rewrite orb_true_r].
        cbn [Node.has_key orb].
        destruct (String.eqb_spec k' k) as [-> | Hne]; [| done].
        congruence.
      * apply Hparse; [lia | done].
Qed.


Lemma value_nested_ind (P : value -> Prop) :
  P VUndefined -> P VNull -> (forall b, P (VBool b)) -> (forall n, P (VNum n)) ->
  (forall n, P (VBigInt n)) -> (forall s, P (VStr s)) ->
  (forall items, Forall P items -> P (VArr items)) ->
  (forall fields, Forall (fun kv => P (snd kv)) fields -> P (VObj fields)) ->
  forall v, P v.
Proof.
  intros Hu Hn Hb Hnum Hbig Hs Harr Hobj.
  fix IH 1. intros [| | b | n | n | s | items | fields];
    [exact Hu | exact Hn | apply Hb | apply Hnum | apply Hbig | apply Hs | |].
  - apply Harr. induction items as [| x r IHr]; constructor; [apply IH | exact IHr].
  - apply Hobj. induction fields as [| [k x] r IHr]; constructor; [apply IH | exact IHr].
Qed.

Lemma string_app_nil (s : string) : (s ++ EmptyString)%string = s.
Proof. induction s as [| c s IH]; [done |]. by rewrite string_app_cons, IH. Qed.

Lemma bracket_app (o c : ascii) (J rest : string) :
  ((String o EmptyString ++ J ++ String c EmptyString) ++ rest)%string
  = String o (J ++ String c rest)%string.
Proof. rewrite !string_app_assoc. reflexivity. Qed.

Lemma json_carried (v : value) : json_clean v = true -> carried v.
Proof.
  induction v as [| | b | n | n | s | items IH | fields IH] using value_nested_ind;
    intros Hclean; try discriminate Hclean; try (apply carried_scalars; exact Hclean).
  - rewrite json_clean_arr in Hclean.
    destruct (carried_items items IH Hclean) as (ts & Hts & Hsize & Hnil & Hhead & Hparse).
    exists ("[" ++ Node.join ts ++ "]")%string.
    rewrite stringify_arr, Hts, json_size_arr.
    split; [done |].
    split; [rewrite !string_length_app; cbn [String.length]; lia |].
    split; [by eexists _, _ |].
    intros [| f] rest Hf _; [lia |].
    rewrite bracket_app, parse_value_arr.
    destruct items as [| x r].
    + by rewrite (Hnil eq_refl).
    + destruct (Hhead ltac:(done)) as (c & s' & Hjoin & Hstart).
      rewrite Hparse; [| done | lia].
      rewrite Hjoin, string_app_cons, (skip_ws_start c _ Hstart).
      by rewrite (proj1 (start_is_no_bracket c Hstart)).
  - rewrite json_clean_obj in Hclean.
    destruct (carried_fields fields IH Hclean) as (ts & Hts & Hsize & Hnil & Hhead & Hparse).
    exists ("{" ++ Node.join ts ++ "}")%string.
    rewrite stringify_obj, Hts, json_size_obj.
    split; [done |].
    split; [rewrite !string_length_app; cbn [String.length]; lia |].
    split; [by eexists _, _ |].
    intros [| f] rest Hf _; [lia |].
    rewrite bracket_app, parse_value_obj.
    destruct fields as [| kx r].
    + by rewrite (Hnil eq_refl).
    + destruct (Hhead ltac:(done)) as (s' & Hjoin).
      rewrite Hparse; [| done | lia | done].
      by rewrite Hjoin.
Qed.

(** ** What the cache stores comes back unchanged *)

(** X28: on Node, [serialize] turns every value made of [null], booleans,
    safe integers, strings, arrays and objects (with distinct property names
    that are no array indices) into a non-empty string from which
    [deserialize] gives the value back: such a value passes [if (cached)] and
    is served as it was computed. *)
Theorem serialize_then_deserialize (v : value) :
  json_clean v = true ->
  exists s,
    Cache.serialize v = VStr s /\ s <> EmptyString /\ Cache.deserialize s = v.
Proof.
  intros Hclean.
  destruct (json_carried v Hclean) as (s & Hs & Hsize & (c & s' & Hc & _) & Hparse).
  exists s. unfold Cache.serialize, Cache.deserialize. cbn [JSON_stringify JSON_parse node].
  rewrite Hs. split; [done |]. split; [by rewrite Hc |].
  unfold Node.parse.
  rewrite <- (string_app_nil s) at 2.
  rewrite Hparse; [done | lia | done].
Qed.

Lemma serialize_then_deserialize_witness :
  json_clean (VObj [("id", VNum (-7)); ("tags", VArr [VStr "a b"; VNull; VBool true])]) = true
  /\ exists s,
       Cache.serialize (VObj [("id", VNum (-7)); ("tags", VArr [VStr "a b"; VNull; VBool true])])
       = VStr s
       /\ s <> EmptyString
       /\ Cache.deserialize s
          = VObj [("id", VNum (-7)); ("tags", VArr [VStr "a b"; VNull; VBool true])].
Proof.
  split; [reflexivity |].
  apply (serialize_then_deserialize
           (VObj [("id", VNum (-7)); ("tags", VArr [VStr "a b"; VNull; VBool true])])).
  reflexivity.
Defined.
